(** * oula-account-today-reward-monitor: a model of [main.go]

    The program reads its flags, opens a PostgreSQL handle, and then, on every
    firing of a ticker, queries today's reward of each configured account,
    registers one gauge per answer in a fresh registry and pushes that registry
    to a Pushgateway.

    The model follows [main.go] statement by statement.  What the program
    calls but does not contain (the database, the gateway, the client
    libraries) appears as explicit oracles: [Env] for what a run observes,
    [External] for the fixed conversions of the libraries. *)

From Stdlib Require Import ZArith QArith Bool List String Ascii Lia Floats.
From Stdlib Require Import Permutation.
Import ListNotations.

Local Open Scope string_scope.
Local Open Scope list_scope.
Local Open Scope Z_scope.

Set Implicit Arguments.

(** ** Go values *)

(** Go's [float64]. *)
Definition float64 : Type := PrimFloat.float.

(** A non-nil Go [error], by its message; [option error] is an [error] that
    may be nil. *)
Definition error : Type := string.

(** [int] and [int64] are 64 bits wide; arithmetic wraps around. *)
Module Int64.

Definition modulus : Z := 2 ^ 64.
Definition min_int : Z := - 2 ^ 63.
Definition max_int : Z := 2 ^ 63 - 1.

Definition in_range (z : Z) : Prop := min_int <= z <= max_int.

Definition wrap (z : Z) : Z := (z + 2 ^ 63) mod modulus - 2 ^ 63.

Definition mul (a b : Z) : Z := wrap (a * b).

End Int64.

(** [package time]: a [Duration] is an [int64] count of nanoseconds. *)
Module Time.

Definition Duration : Type := Z.
Definition Second : Duration := 1000000000.

(** [time.NewTicker(d)] panics when [d <= 0]; otherwise a ticker of period
    [d] is returned. *)
Inductive NewTicker_result :=
| TickerPanic (msg : string)
| Ticker (period : Duration).

Definition NewTicker (d : Duration) : NewTicker_result :=
  if d <=? 0 then TickerPanic "non-positive interval for NewTicker"
  else Ticker d.

End Time.

(** [package strings], for a one-byte separator. *)
Module Strings.

(** [strings.Split(s, sep)] with [sep] the single byte [c]: the pieces of
    [s] between consecutive occurrences of [c], in order.  The result always
    has at least one element. *)
Fixpoint Split (s : string) (c : ascii) : list string :=
  match s with
  | EmptyString => [EmptyString]
  | String x rest =>
      if Ascii.eqb x c then EmptyString :: Split rest c
      else match Split rest c with
           | piece :: pieces => String x piece :: pieces
           | [] => [String x EmptyString]
           end
  end.

(** [strings.Count(s, sep)] for the single byte [c]. *)
Fixpoint Count (s : string) (c : ascii) : nat :=
  match s with
  | EmptyString => O
  | String x rest => if Ascii.eqb x c then S (Count rest c) else Count rest c
  end.

(** [strings.Join(elems, sep)] for the single byte [c]. *)
Fixpoint Join (elems : list string) (c : ascii) : string :=
  match elems with
  | [] => EmptyString
  | [e] => e
  | e :: rest => (e ++ String c (Join rest c))%string
  end.

End Strings.

Definition comma : ascii := ","%char.

(** ** Flags (main.go, lines 17-25) *)

(** The values of the seven flags after [flag.Parse()]. *)
Record Config := {
  accountStr : string;
  interval : Z;
  pushgateway : string;
  job : string;
  metricsName : string;
  instance : string;
  dsn : string
}.

(** What the command line gives for each flag: [None] when the flag is absent.
    The syntax of the command line and the conversion of the text of
    [-interval] to an [int] belong to [package flag]. *)
Record CommandLine := {
  arg_account : option string;
  arg_interval : option Z;
  arg_pushgateway : option string;
  arg_job : option string;
  arg_metrics : option string;
  arg_instance : option string;
  arg_dsn : option string
}.

Module Flag.

(** [flag.String(name, value, usage)]: the given text, else [value]. *)
Definition String (given : option string) (value : string) : string :=
  match given with Some s => s | None => value end.

(** [flag.Int(name, value, usage)]: the given number, else [value]. *)
Definition Int (given : option Z) (value : Z) : Z :=
  match given with Some n => n | None => value end.

End Flag.

Definition parse_flags (cl : CommandLine) : Config :=
  {| accountStr := Flag.String (arg_account cl) "";
     interval := Flag.Int (arg_interval cl) 30;
     pushgateway := Flag.String (arg_pushgateway cl) "http://localhost:9091";
     job := Flag.String (arg_job cl) "";
     metricsName := Flag.String (arg_metrics cl) "";
     instance := Flag.String (arg_instance cl) "";
     dsn := Flag.String (arg_dsn cl) "" |}.

(** The command line with no flag at all. *)
Definition no_flags : CommandLine :=
  {| arg_account := None; arg_interval := None; arg_pushgateway := None;
     arg_job := None; arg_metrics := None; arg_instance := None;
     arg_dsn := None |}.

(** ** The database (main.go, lines 95-114) *)

(** Modelled from the spec: the schema of the two tables named by the SQL text
    is not in the source.  The columns are the ones the statement mentions;
    [reward] is an integer number of micro-units, [epoch_time] and [NOW] are
    instants (seconds since the Unix epoch). *)
Record miner_account_row := {
  ma_id : Z;
  ma_name : string
}.

(** Modelled from the spec: the columns of [epoch_distributor] that the
    statement reads; the schema is not in the source. *)
Record epoch_distributor_row := {
  ed_project : string;
  ed_miner_account_id : Z;
  ed_epoch_time : Z;
  ed_reward : Z
}.

(** The database as one statement sees it: the two tables, the value of
    [NOW()], and the error, if any, with which the server or the connection
    answers the statement. *)
Record DB := {
  miner_account : list miner_account_row;
  epoch_distributor : list epoch_distributor_row;
  NOW : Z;
  fault : option error
}.

(** Conversions fixed by the libraries and the server rather than by the
    program. *)
Class External := {
  (** [DATE(t AT TIME ZONE 'Asia/Shanghai')]: the calendar day of the instant
      [t] in that zone, as a day number. *)
  shanghai_date : Z -> Z;
  (** [Scan] into a [*float64] of the one numeric column of the answer. *)
  scan_float64 : Q -> float64;
  scan_float64_zero : scan_float64 0%Q = 0%float;
  (** Whether the registry finds the descriptor of a gauge with this metric
      name and this value of the constant label [account] well formed. *)
  desc_valid : string -> string -> bool
}.

Module SQL.

(** [SUM(x)] over the selected rows: NULL when there is none. *)
Definition SUM (xs : list Z) : option Z :=
  match xs with
  | [] => None
  | _ => Some (fold_right Z.add 0 xs)
  end.

(** [x / 1e6]: NULL when [x] is. *)
Definition div_1e6 (x : option Z) : option Q :=
  match x with
  | None => None
  | Some s => Some (inject_Z s / inject_Z 1000000)%Q
  end.

Definition COALESCE (x : option Q) (d : Q) : Q :=
  match x with Some q => q | None => d end.

End SQL.

Section Query.

Context `{External}.

(** [miner_account_id IN (SELECT id FROM miner_account WHERE name = $1)] *)
Definition account_id_in (db : DB) (account : string) (aid : Z) : bool :=
  existsb (fun a => String.eqb (ma_name a) account && (ma_id a =? aid))
          (miner_account db).

(** The WHERE clause of [sqlStmt]. *)
Definition where_clause (db : DB) (account : string)
           (row : epoch_distributor_row) : bool :=
  String.eqb (ed_project row) "ALEO"
  && account_id_in db account (ed_miner_account_id row)
  && (shanghai_date (ed_epoch_time row) =? shanghai_date (NOW db)).

Definition selected (db : DB) (account : string) : list epoch_distributor_row :=
  filter (where_clause db account) (epoch_distributor db).

(** The value of the one row, one column answer of [sqlStmt]. *)
Definition sqlStmt (db : DB) (account : string) : Q :=
  SQL.COALESCE
    (SQL.div_1e6 (SQL.SUM (map ed_reward (selected db account)))) 0%Q.

(** [db.QueryRow(sqlStmt, account).Scan(&dailyReward)]: [fault] stands for
    any error of the call, of the connection, of the server or of the
    conversion in [Scan]. *)
Definition QueryRow_Scan (db : DB) (account : string) : float64 + error :=
  match fault db with
  | Some err => inr err
  | None => inl (scan_float64 (sqlStmt db account))
  end.

Definition queryDailyReward (db : DB) (account : string)
  : float64 * option error :=
  match QueryRow_Scan db account with
  | inr err => (0%float, Some err)
  | inl dailyReward => (dailyReward, None)
  end.

End Query.

(** ** The metrics registry and the push *)

(** A gauge as this program builds it: metric name, the value of its one
    constant label [account], and its current value. *)
Record Gauge := {
  gauge_name : string;
  gauge_account : string;
  gauge_value : float64
}.

Module Prometheus.

Inductive RegisterError :=
| InvalidDescriptor
| AlreadyRegistered.

(** Collectors in registration order. *)
Definition Registry : Type := list Gauge.

Definition NewRegistry : Registry := [].

Definition NewGauge (name account : string) : Gauge :=
  {| gauge_name := name; gauge_account := account; gauge_value := 0%float |}.

Definition Set_ (g : Gauge) (v : float64) : Gauge :=
  {| gauge_name := gauge_name g; gauge_account := gauge_account g;
     gauge_value := v |}.

(** Two gauges have the same identity when their fully qualified names and
    the values of their constant labels agree. *)
Definition same_id (g h : Gauge) : bool :=
  String.eqb (gauge_name g) (gauge_name h)
  && String.eqb (gauge_account g) (gauge_account h).

Definition registered (reg : Registry) (g : Gauge) : bool :=
  existsb (same_id g) reg.

(** [reg.Register(g)]: refuses an invalid descriptor, refuses a second
    collector of an identity already registered, otherwise adds [g]. *)
Definition Register `{External} (reg : Registry) (g : Gauge)
  : Registry * option RegisterError :=
  if negb (desc_valid (gauge_name g) (gauge_account g))
  then (reg, Some InvalidDescriptor)
  else if registered reg g then (reg, Some AlreadyRegistered)
  else (reg ++ [g], None).

(** Where a gauge goes among gauges already in the order of their label
    values (strings compare byte by byte). *)
Fixpoint insert_by_label (g : Gauge) (sorted : list Gauge) : list Gauge :=
  match sorted with
  | [] => [g]
  | h :: rest =>
      if String.leb (gauge_account g) (gauge_account h)
      then g :: sorted
      else h :: insert_by_label g rest
  end.

(** What the registry hands to the pusher: its gauges, which all have the
    same name, in the order of the values of their label. *)
Definition Gather (reg : Registry) : list Gauge :=
  fold_right insert_by_label [] reg.

Arguments Gather reg : simpl never.

End Prometheus.

(** One call of [push.New(url, job).Grouping("instance", v).Gatherer(reg).Push()]. *)
Record PushRequest := {
  push_url : string;
  push_job : string;
  push_instance : string;
  push_metrics : list Gauge
}.

(** ** What a run observes *)

Record Env := {
  (** [sql.Open("postgres", dsn)] *)
  sql_Open : string -> option error;
  (** [db.Ping()] on the handle opened with this DSN *)
  db_Ping : string -> option error;
  (** the database as the [n]-th query of the run finds it *)
  database : nat -> DB;
  (** the outcome of the [n]-th push of the run *)
  gateway : nat -> PushRequest -> option error
}.

Inductive LogLine :=
| Start_monitoring (interval : Z) (pushgateway job metrics instance : string)
| queryDailyReward_error (account : string) (err : error)
| Register_gauge_error (err : Prometheus.RegisterError)
| Could_not_push (err : error)
| Metrics_pushed_successfully.

(** What the process does that is visible from outside, in order. *)
Inductive Event :=
| EvQuery (account : string) (result : float64 * option error)
| EvPush (req : PushRequest) (result : option error)
| EvLog (line : LogLine).

(** How many queries and pushes the run has made so far. *)
Record Clock := {
  queries : nat;
  pushes : nat
}.

(** ** The pusher *)

(** The error a pusher made by [push.New] with an empty job name keeps. *)
Definition errJobEmpty : error := "job name is empty".

(** Whether a request leaves the process: [Push()] on a pusher that keeps an
    error returns that error and sends nothing. *)
Definition reaches_gateway (req : PushRequest) : bool :=
  negb (String.eqb (push_job req) "").

(** [push.New(url, job).Grouping("instance", v).Gatherer(reg).Push()], as the
    [n]-th call of the run: the error of the pusher if it has one, else the
    answer of the gateway to the request. *)
Definition Push (env : Env) (n : nat) (req : PushRequest) : option error :=
  if reaches_gateway req then gateway env n req else Some errJobEmpty.

(** ** The loop (main.go, lines 53-92) *)

Section Loop.

Context `{External}.
Variable cfg : Config.
Variable env : Env.

(** The body of [for _, acc := range accounts] (lines 60-78), as the
    [q]-th query of the run, on the registry [reg]. *)
Definition scrape_account (q : nat) (reg : Prometheus.Registry) (acc : string)
  : Prometheus.Registry * list Event :=
  let result := queryDailyReward (database env q) acc in
  match snd result with
  | Some queryErr =>
      (reg, [EvQuery acc result; EvLog (queryDailyReward_error acc queryErr)])
  | None =>
      let gauge :=
        Prometheus.Set_ (Prometheus.NewGauge (metricsName cfg) acc)
                        (fst result) in
      match Prometheus.Register reg gauge with
      | (reg', Some err) =>
          (reg', [EvQuery acc result; EvLog (Register_gauge_error err)])
      | (reg', None) => (reg', [EvQuery acc result])
      end
  end.

(** [for _, acc := range accounts { ... }] (lines 59-79) *)
Fixpoint scrape_accounts (q : nat) (reg : Prometheus.Registry)
         (accounts : list string)
  : nat * Prometheus.Registry * list Event :=
  match accounts with
  | [] => (q, reg, [])
  | acc :: rest =>
      let '(reg1, ev1) := scrape_account q reg acc in
      let '(q', reg2, ev2) := scrape_accounts (S q) reg1 rest in
      (q', reg2, ev1 ++ ev2)
  end.

(** The request of lines 82-85 for the registry [reg]. *)
Definition push_request (reg : Prometheus.Registry) : PushRequest :=
  {| push_url := pushgateway cfg;
     push_job := job cfg;
     push_instance := instance cfg;
     push_metrics := Prometheus.Gather reg |}.

(** One firing of the ticker: the body of [case <-ticker.C] (lines 56-90). *)
Definition tick (accounts : list string) (c : Clock) : Clock * list Event :=
  let reg := Prometheus.NewRegistry in
  let '(q', reg', evs) := scrape_accounts (queries c) reg accounts in
  let req := push_request reg' in
  let err := Push env (pushes c) req in
  let line :=
    match err with
    | Some e => Could_not_push e
    | None => Metrics_pushed_successfully
    end in
  ({| queries := q'; pushes := S (pushes c) |},
   evs ++ [EvPush req err; EvLog line]).

(** The first [n] iterations of [for { select { case <-ticker.C: ... } }]. *)
Fixpoint ticks (accounts : list string) (n : nat) (c : Clock)
  : Clock * list Event :=
  match n with
  | O => (c, [])
  | S k =>
      let '(c1, ev1) := ticks accounts k c in
      let '(c2, ev2) := tick accounts c1 in
      (c2, ev1 ++ ev2)
  end.

(** ** Startup (main.go, lines 27-50) *)

Inductive FatalMsg :=
| No_account_provided
| Failed_to_open_DB (err : error)
| DB_ping_error (err : error).

Inductive Startup :=
| Fatal (msg : FatalMsg)          (* log.Fatalf: the process exits with status 1 *)
| Panic (msg : string)            (* an uncaught panic ends the process *)
| Loop (accounts : list string) (period : Time.Duration) (log : list Event).

Definition startup : Startup :=
  if String.eqb (accountStr cfg) "" then Fatal No_account_provided
  else
    let accounts := Strings.Split (accountStr cfg) comma in
    match sql_Open env (dsn cfg) with
    | Some err => Fatal (Failed_to_open_DB err)
    | None =>
        match db_Ping env (dsn cfg) with
        | Some err => Fatal (DB_ping_error err)
        | None =>
            match Time.NewTicker (Int64.mul (interval cfg) Time.Second) with
            | Time.TickerPanic msg => Panic msg
            | Time.Ticker period =>
                Loop accounts period
                     [EvLog (Start_monitoring (interval cfg) (pushgateway cfg)
                               (job cfg) (metricsName cfg) (instance cfg))]
            end
        end
    end.

(** The process as seen once the ticker has fired [n] times. *)
Inductive Process :=
| Exited (status : Z) (msg : FatalMsg)
| Panicked (msg : string)
| Running (c : Clock) (trace : list Event).

Definition main (n : nat) : Process :=
  match startup with
  | Fatal msg => Exited 1 msg
  | Panic msg => Panicked msg
  | Loop accounts _ log =>
      let '(c, evs) := ticks accounts n {| queries := 0; pushes := 0 |} in
      Running c (log ++ evs)
  end.

End Loop.

(** ** A concrete setting, for running the model *)

Module Sample.

Definition float_of_Z (z : Z) : float64 :=
  match z with
  | Z0 => 0%float
  | Zpos _ => PrimFloat.of_uint63 (Uint63.of_Z z)
  | Zneg p => PrimFloat.opp (PrimFloat.of_uint63 (Uint63.of_Z (Zpos p)))
  end.

Definition is_letter (a : ascii) : bool :=
  let n := nat_of_ascii a in
  ((65 <=? n) && (n <=? 90) || (97 <=? n) && (n <=? 122))%nat
  || Ascii.eqb a "_"%char || Ascii.eqb a ":"%char.

Definition is_digit (a : ascii) : bool :=
  let n := nat_of_ascii a in ((48 <=? n) && (n <=? 57))%nat.

Fixpoint all_chars (p : ascii -> bool) (s : string) : bool :=
  match s with
  | EmptyString => true
  | String a rest => p a && all_chars p rest
  end.

(** Metric names of the exposition format: [[a-zA-Z_:][a-zA-Z0-9_:]*]. *)
Definition valid_metric_name (s : string) : bool :=
  match s with
  | EmptyString => false
  | String a rest =>
      is_letter a && all_chars (fun x => is_letter x || is_digit x) rest
  end.

(** UTC+8 all year; the quotient rounded by the float division, which is the
    nearest float64 for numerators and denominators below 2^53 (beyond, the
    conversion of the driver differs); names checked by the rule above, any
    label value accepted. *)
#[export] Instance external : External :=
  {| shanghai_date := fun t => (t + 28800) / 86400;
     scan_float64 := fun q =>
       PrimFloat.div (float_of_Z (Qnum q)) (float_of_Z (Zpos (Qden q)));
     scan_float64_zero := eq_refl;
     desc_valid := fun name _ => valid_metric_name name |}.

Definition alice : miner_account_row := {| ma_id := 1; ma_name := "alice" |}.
Definition bob : miner_account_row := {| ma_id := 2; ma_name := "bob" |}.

(** 2024-05-01 12:00:00 +08:00 *)
Definition noon : Z := 1714536000.

Definition paid (aid amount : Z) (t : Z) : epoch_distributor_row :=
  {| ed_project := "ALEO"; ed_miner_account_id := aid;
     ed_epoch_time := t; ed_reward := amount |}.

(** alice was paid 3 and 2 units today and 7 units yesterday; bob was paid
    nothing today. *)
Definition db0 : DB :=
  {| miner_account := [alice; bob];
     epoch_distributor :=
       [paid 1 3000000 (noon - 3600); paid 1 2000000 (noon - 60);
        paid 1 7000000 (noon - 86400); paid 2 1000000 (noon - 86400)];
     NOW := noon;
     fault := None |}.

(** the same database, a payment of 1 unit to alice later *)
Definition db1 : DB :=
  {| miner_account := miner_account db0;
     epoch_distributor := paid 1 1000000 noon :: epoch_distributor db0;
     NOW := noon + 1;
     fault := None |}.

Definition down (db : DB) : DB :=
  {| miner_account := miner_account db;
     epoch_distributor := epoch_distributor db;
     NOW := NOW db;
     fault := Some "connection refused" |}.

(** A healthy run: database [db0] throughout, every push accepted. *)
Definition env_ok : Env :=
  {| sql_Open := fun _ => None;
     db_Ping := fun _ => None;
     database := fun _ => db0;
     gateway := fun _ _ => None |}.

(** The database changes after the first query of the run. *)
Definition env_changing : Env :=
  {| sql_Open := fun _ => None;
     db_Ping := fun _ => None;
     database := fun n => match n with O => db0 | _ => db1 end;
     gateway := fun _ _ => None |}.

(** The tables stay as they are while [NOW()] advances by one second at
    each query, within the same day. *)
Definition env_later : Env :=
  {| sql_Open := fun _ => None;
     db_Ping := fun _ => None;
     database := fun n =>
       {| miner_account := miner_account db0;
          epoch_distributor := epoch_distributor db0;
          NOW := noon + Z.of_nat (Nat.min n 3600);
          fault := None |};
     gateway := fun _ _ => None |}.


(** Every query fails and the gateway is unreachable. *)
Definition env_down : Env :=
  {| sql_Open := fun _ => None;
     db_Ping := fun _ => None;
     database := fun _ => down db0;
     gateway := fun _ _ => Some "connection refused" |}.

(** The database does not answer the ping. *)
Definition env_unreachable : Env :=
  {| sql_Open := fun _ => None;
     db_Ping := fun _ => Some "connection refused";
     database := fun _ => down db0;
     gateway := fun _ _ => None |}.

Definition cfg_of (accounts : string) (seconds : Z) : Config :=
  {| accountStr := accounts; interval := seconds;
     pushgateway := "http://localhost:9091"; job := "reward";
     metricsName := "daily_reward"; instance := "monitor-1";
     dsn := "postgres://localhost/oula" |}.

End Sample.

(** ** Reading a trace *)

(** The accounts queried, in order. *)
Fixpoint queried (evs : list Event) : list string :=
  match evs with
  | [] => []
  | EvQuery acc _ :: rest => acc :: queried rest
  | _ :: rest => queried rest
  end.

(** The requests pushed, in order. *)
Fixpoint pushed (evs : list Event) : list PushRequest :=
  match evs with
  | [] => []
  | EvPush req _ :: rest => req :: pushed rest
  | _ :: rest => pushed rest
  end.


(** The lines logged, in order. *)
Fixpoint logged (evs : list Event) : list LogLine :=
  match evs with
  | [] => []
  | EvLog line :: rest => line :: logged rest
  | _ :: rest => logged rest
  end.


(** The gauge the loop builds for [acc] when its query answers [v]
    (lines 67-73). *)
Definition gauge_for (cfg : Config) (acc : string) (v : float64) : Gauge :=
  Prometheus.Set_ (Prometheus.NewGauge (metricsName cfg) acc) v.

(** The registry of a tick begun at clock [c] as the [i]-th entry of
    [accounts] finds it. *)
Definition registry_at `{External} (cfg : Config) (env : Env)
           (accounts : list string) (c : Clock) (i : nat)
  : Prometheus.Registry :=
  snd (fst (scrape_accounts cfg env (queries c) Prometheus.NewRegistry
                            (firstn i accounts))).

(** The answer to the query of the [i]-th entry of a tick begun at [c]. *)
Definition answer `{External} (env : Env) (c : Clock) (i : nat) (acc : string)
  : float64 * option error :=
  queryDailyReward (database env (queries c + i)) acc.

(** The database after one more row has been recorded in
    [epoch_distributor] (by the distributor, not by this program, which only
    reads). *)
Definition with_row (db : DB) (row : epoch_distributor_row) : DB :=
  {| miner_account := miner_account db;
     epoch_distributor := row :: epoch_distributor db;
     NOW := NOW db;
     fault := fault db |}.

(** * Facts *)

(** ** [strings.Split] *)

Module SplitFacts.

Import Strings.

Lemma Split_not_nil (s : string) (c : ascii) : Split s c <> [].
Proof.
  destruct s as [|x rest]; simpl; [discriminate|].
  destruct (Ascii.eqb x c); [discriminate|].
  destruct (Split rest c); discriminate.
Qed.

Lemma Split_length (s : string) (c : ascii) :
  List.length (Split s c) = S (Count s c).
Proof.
  induction s as [|x rest IH]; simpl; [reflexivity|].
  destruct (Ascii.eqb x c); simpl.
  - now rewrite IH.
  - destruct (Split rest c) as [|piece pieces] eqn:E.
    + now destruct (Split_not_nil rest c).
    + simpl in *. exact IH.
Qed.

Lemma Join_cons (e : string) (l : list string) (c : ascii) :
  l <> [] -> Join (e :: l) c = (e ++ String c (Join l c))%string.
Proof. destruct l; [congruence | reflexivity]. Qed.

Lemma Join_Split (s : string) (c : ascii) : Join (Split s c) c = s.
Proof.
  induction s as [|x rest IH]; simpl; [reflexivity|].
  destruct (Ascii.eqb x c) eqn:E.
  - apply Ascii.eqb_eq in E; subst x.
    rewrite Join_cons by apply Split_not_nil.
    simpl. now rewrite IH.
  - destruct (Split rest c) as [|piece pieces] eqn:S.
    + now destruct (Split_not_nil rest c).
    + destruct pieces as [|p ps].
      * simpl in *. now rewrite IH.
      * rewrite Join_cons by discriminate.
        rewrite Join_cons in IH by discriminate.
        rewrite <- IH. reflexivity.
Qed.

Lemma Split_pieces_free (s : string) (c : ascii) :
  Forall (fun piece => Count piece c = O) (Split s c).
Proof.
  induction s as [|x rest IH]; simpl.
  - constructor; [reflexivity | constructor].
  - destruct (Ascii.eqb x c) eqn:E.
    + constructor; [reflexivity | exact IH].
    + destruct (Split rest c) as [|piece pieces].
      * constructor; [simpl; now rewrite E | constructor].
      * inversion IH; subst.
        constructor; [simpl; now rewrite E | assumption].
Qed.

End SplitFacts.

(** ** 64-bit arithmetic of the ticker period *)

Module Int64Facts.

Import Int64.

Lemma wrap_id (z : Z) : in_range z -> wrap z = z.
Proof.
  unfold in_range, wrap, min_int, max_int, modulus. intros Hz.
  rewrite Z.mod_small; lia.
Qed.

Lemma wrap_in_range (z : Z) : in_range (wrap z).
Proof.
  unfold in_range, wrap, min_int, max_int, modulus.
  pose proof (Z.mod_pos_bound (z + 2 ^ 63) (2 ^ 64) ltac:(lia)). lia.
Qed.

(** Whole seconds up to about 292 years, either sign, do not overflow. *)
Lemma seconds_exact (n : Z) :
  -9223372036 <= n <= 9223372036 -> mul n Time.Second = n * 1000000000.
Proof.
  intros Hn. unfold mul, Time.Second. apply wrap_id.
  unfold in_range, min_int, max_int. lia.
Qed.

End Int64Facts.

(** ** The registry *)

Module RegistryFacts.

Import Prometheus.

Section WithExternal.

Context `{External}.

Lemma Register_cases (reg : Registry) (g : Gauge) :
  (desc_valid (gauge_name g) (gauge_account g) = false
   /\ Register reg g = (reg, Some InvalidDescriptor))
  \/ (desc_valid (gauge_name g) (gauge_account g) = true
      /\ registered reg g = true
      /\ Register reg g = (reg, Some AlreadyRegistered))
  \/ (desc_valid (gauge_name g) (gauge_account g) = true
      /\ registered reg g = false
      /\ Register reg g = (reg ++ [g], None)).
Proof.
  unfold Register.
  destruct (desc_valid (gauge_name g) (gauge_account g)); simpl; auto.
  destruct (registered reg g); auto.
Qed.

(** A refused gauge leaves the registry as it was. *)
Lemma Register_refused (reg reg' : Registry) (g : Gauge) err :
  Register reg g = (reg', Some err) -> reg' = reg.
Proof.
  destruct (Register_cases reg g) as [[_ E]|[(_ & _ & E)|(_ & _ & E)]];
    rewrite E; congruence.
Qed.

Lemma Register_accepted (reg reg' : Registry) (g : Gauge) :
  Register reg g = (reg', None) ->
  reg' = reg ++ [g]
  /\ desc_valid (gauge_name g) (gauge_account g) = true
  /\ registered reg g = false.
Proof.
  destruct (Register_cases reg g) as [[_ E]|[(_ & _ & E)|(V & R & E)]];
    rewrite E; intros [= <-]; auto.
Qed.

(** Nothing is ever removed. *)
Lemma Register_keeps (reg : Registry) (g h : Gauge) :
  In h reg -> In h (fst (Register reg g)).
Proof.
  destruct (Register_cases reg g) as [[_ E]|[(_ & _ & E)|(_ & _ & E)]];
    rewrite E; simpl; auto using in_or_app.
Qed.

End WithExternal.

(** When all gauges have the same name, identities differ exactly by the
    value of [account]. *)
Lemma registered_uniform (name : string) (reg : Registry) (g : Gauge) :
  Forall (fun h => gauge_name h = name) reg -> gauge_name g = name ->
  registered reg g = true <-> In (gauge_account g) (map gauge_account reg).
Proof.
  intros U N. unfold registered. rewrite existsb_exists, in_map_iff.
  split.
  - intros (h & Hin & Hid). unfold same_id in Hid.
    apply andb_true_iff in Hid as [_ Hacc]. apply String.eqb_eq in Hacc.
    exists h. split; [symmetry; exact Hacc | exact Hin].
  - intros (h & Hacc & Hin). exists h. split; [exact Hin|].
    unfold same_id. rewrite Forall_forall in U.
    rewrite N, (U h Hin), Hacc, !String.eqb_refl. reflexivity.
Qed.

Lemma insert_by_label_perm (g : Gauge) (l : list Gauge) :
  Permutation (insert_by_label g l) (g :: l).
Proof.
  induction l as [|h rest IH]; simpl; [apply Permutation_refl|].
  destruct (String.leb (gauge_account g) (gauge_account h)).
  - apply Permutation_refl.
  - eapply Permutation_trans; [apply perm_skip, IH | apply perm_swap].
Qed.

(** Gathering reorders the gauges and does nothing else. *)
Lemma Gather_perm (reg : Registry) : Permutation (Gather reg) reg.
Proof.
  induction reg as [|g rest IH]; simpl; [apply perm_nil|].
  eapply Permutation_trans; [apply insert_by_label_perm|].
  now apply perm_skip.
Qed.

Lemma Gather_In (reg : Registry) (g : Gauge) : In g (Gather reg) <-> In g reg.
Proof.
  split; apply Permutation_in;
    [apply Gather_perm | apply Permutation_sym, Gather_perm].
Qed.

Lemma Gather_NoDup (reg : Registry) :
  NoDup (map gauge_account reg) -> NoDup (map gauge_account (Gather reg)).
Proof.
  apply Permutation_NoDup, Permutation_map, Permutation_sym, Gather_perm.
Qed.



End RegistryFacts.

(** ** The loop over the accounts *)

Module ScrapeFacts.

Import Prometheus RegistryFacts.

Section Run.

Context `{External}.
Variable cfg : Config.
Variable env : Env.

Local Abbreviation query q acc := (queryDailyReward (database env q) acc).
Local Abbreviation named reg :=
  (Forall (fun g => gauge_name g = metricsName cfg) reg).

(** The two ways through the body of the loop. *)
Lemma scrape_account_eq (q : nat) (reg : Registry) (acc : string) :
  scrape_account cfg env q reg acc =
  match snd (query q acc) with
  | Some e =>
      (reg, [EvQuery acc (query q acc); EvLog (queryDailyReward_error acc e)])
  | None =>
      let r := Register reg (gauge_for cfg acc (fst (query q acc))) in
      (fst r,
       EvQuery acc (query q acc)
       :: match snd r with
          | Some err => [EvLog (Register_gauge_error err)]
          | None => []
          end)
  end.
Proof.
  unfold scrape_account, gauge_for.
  destruct (snd (query q acc)); [reflexivity|].
  destruct (Register _ _) as [reg' [err|]]; reflexivity.
Qed.

Lemma scrape_account_queried q reg acc :
  queried (snd (scrape_account cfg env q reg acc)) = [acc].
Proof.
  rewrite scrape_account_eq.
  destruct (snd (query q acc)); [reflexivity|].
  simpl. destruct (snd (Register _ _)); reflexivity.
Qed.

Lemma scrape_account_pushed q reg acc :
  pushed (snd (scrape_account cfg env q reg acc)) = [].
Proof.
  rewrite scrape_account_eq.
  destruct (snd (query q acc)); [reflexivity|].
  simpl. destruct (snd (Register _ _)); reflexivity.
Qed.

Lemma scrape_account_keeps q reg acc h :
  In h reg -> In h (fst (scrape_account cfg env q reg acc)).
Proof.
  rewrite scrape_account_eq.
  destruct (snd (query q acc)); [auto|].
  simpl. apply Register_keeps.
Qed.

(** What one entry can add to the registry: nothing, or its own gauge. *)
Lemma scrape_account_adds q reg acc :
  fst (scrape_account cfg env q reg acc) = reg
  \/ (exists v, query q acc = (v, None)
                /\ desc_valid (metricsName cfg) acc = true
                /\ registered reg (gauge_for cfg acc v) = false
                /\ fst (scrape_account cfg env q reg acc)
                   = reg ++ [gauge_for cfg acc v]).
Proof.
  rewrite scrape_account_eq.
  destruct (query q acc) as [v [e|]] eqn:Q; simpl; [now left|].
  destruct (Register_cases reg (gauge_for cfg acc v))
    as [[_ E]|[(_ & _ & E)|(V & R & E)]]; rewrite E; simpl; auto.
  right. exists v. auto.
Qed.

(** The loop, entry by entry. *)
Lemma scrape_accounts_cons q reg acc rest :
  scrape_accounts cfg env q reg (acc :: rest) =
  let s := scrape_account cfg env q reg acc in
  let t := scrape_accounts cfg env (S q) (fst s) rest in
  (fst (fst t), snd (fst t), snd s ++ snd t).
Proof.
  simpl. destruct (scrape_account cfg env q reg acc) as [reg1 ev1].
  simpl. destruct (scrape_accounts cfg env (S q) reg1 rest) as [[q' reg2] ev2].
  reflexivity.
Qed.

Lemma scrape_accounts_clock accounts : forall q reg,
  fst (fst (scrape_accounts cfg env q reg accounts))
  = (q + List.length accounts)%nat.
Proof.
  induction accounts as [|acc rest IH]; intros q reg.
  - simpl. lia.
  - rewrite scrape_accounts_cons. simpl. rewrite IH. lia.
Qed.

Lemma scrape_accounts_app l1 : forall l2 q reg,
  scrape_accounts cfg env q reg (l1 ++ l2) =
  let s := scrape_accounts cfg env q reg l1 in
  let t := scrape_accounts cfg env (q + List.length l1) (snd (fst s)) l2 in
  (fst (fst t), snd (fst t), snd s ++ snd t).
Proof.
  induction l1 as [|acc rest IH]; intros l2 q reg.
  - simpl. rewrite Nat.add_0_r.
    destruct (scrape_accounts cfg env q reg l2) as [[q' reg'] evs].
    reflexivity.
  - rewrite <- app_comm_cons, !scrape_accounts_cons. cbv zeta.
    rewrite IH. cbv zeta. simpl.
    rewrite Nat.add_succ_r, app_assoc. reflexivity.
Qed.

Lemma scrape_accounts_queried accounts : forall q reg,
  queried (snd (scrape_accounts cfg env q reg accounts)) = accounts.
Proof.
  assert (Q : forall a b, queried (a ++ b) = queried a ++ queried b).
  { induction a as [|[]]; simpl; intros; rewrite ?IHa; reflexivity. }
  induction accounts as [|acc rest IH]; intros q reg; [reflexivity|].
  rewrite scrape_accounts_cons. simpl.
  rewrite Q, scrape_account_queried, IH. reflexivity.
Qed.

Lemma scrape_accounts_pushed accounts : forall q reg,
  pushed (snd (scrape_accounts cfg env q reg accounts)) = [].
Proof.
  assert (P : forall a b, pushed (a ++ b) = pushed a ++ pushed b).
  { induction a as [|[]]; simpl; intros; rewrite ?IHa; reflexivity. }
  induction accounts as [|acc rest IH]; intros q reg; [reflexivity|].
  rewrite scrape_accounts_cons. simpl.
  rewrite P, scrape_account_pushed, IH. reflexivity.
Qed.

Lemma scrape_accounts_keeps accounts : forall q reg h,
  In h reg -> In h (snd (fst (scrape_accounts cfg env q reg accounts))).
Proof.
  induction accounts as [|acc rest IH]; intros q reg h Hin; [exact Hin|].
  rewrite scrape_accounts_cons. simpl.
  apply IH. now apply scrape_account_keeps.
Qed.

Lemma scrape_accounts_named accounts : forall q reg,
  named reg -> named (snd (fst (scrape_accounts cfg env q reg accounts))).
Proof.
  induction accounts as [|acc rest IH]; intros q reg N; [exact N|].
  rewrite scrape_accounts_cons. simpl. apply IH.
  destruct (scrape_account_adds q reg acc) as [->|(v & _ & _ & _ & ->)];
    [exact N|].
  apply Forall_app. split; [exact N|]. constructor; [reflexivity|constructor].
Qed.

(** At most one gauge per value of [account]. *)
Lemma scrape_accounts_NoDup accounts : forall q reg,
  named reg -> NoDup (map gauge_account reg) ->
  NoDup (map gauge_account
             (snd (fst (scrape_accounts cfg env q reg accounts)))).
Proof.
  induction accounts as [|acc rest IH]; intros q reg N ND; [exact ND|].
  rewrite scrape_accounts_cons. simpl.
  destruct (scrape_account_adds q reg acc) as [E|(v & _ & _ & R & E)];
    rewrite E; apply IH; auto.
  - apply Forall_app. split; [exact N|]. constructor; [reflexivity|constructor].
  - rewrite map_app. simpl.
    assert (Hnot : ~ In acc (map gauge_account reg)).
    { intros Hin. apply (registered_uniform (gauge_for cfg acc v) N eq_refl) in Hin.
      congruence. }
    clear - ND Hnot. induction reg as [|g reg IHr]; simpl in *.
    + constructor; [tauto | constructor].
    + inversion ND; subst. constructor.
      * rewrite in_app_iff. simpl. intuition congruence.
      * apply IHr; tauto.
Qed.


(** Every gauge of the registry was there before or is the gauge of an
    entry whose query succeeded, with the value the query returned. *)
Lemma scrape_accounts_provenance accounts : forall q reg g,
  In g (snd (fst (scrape_accounts cfg env q reg accounts))) ->
  In g reg
  \/ exists i acc,
       nth_error accounts i = Some acc
       /\ query (q + i) acc = (gauge_value g, None)
       /\ g = gauge_for cfg acc (gauge_value g)
       /\ desc_valid (metricsName cfg) acc = true.
Proof.
  induction accounts as [|acc rest IH]; intros q reg g; [now left|].
  rewrite scrape_accounts_cons. simpl. intros Hin.
  apply IH in Hin as [Hin|(i & a & Hn & Hq & Hg & Hv)].
  - destruct (scrape_account_adds q reg acc) as [E|(v & Q & V & _ & E)];
      rewrite E in Hin; [now left|].
    apply in_app_or in Hin as [Hin|[<-|[]]]; [now left|].
    right. exists O, acc. rewrite Nat.add_0_r. simpl. auto.
  - right. exists (S i), a. rewrite Nat.add_succ_r. auto.
Qed.

(** Once an entry with a valid descriptor has been answered, the registry
    holds a gauge for its name. *)
Lemma scrape_account_covers q reg acc v :
  named reg -> query q acc = (v, None) ->
  desc_valid (metricsName cfg) acc = true ->
  In acc (map gauge_account (fst (scrape_account cfg env q reg acc))).
Proof.
  intros N Q V. rewrite scrape_account_eq, Q. simpl.
  destruct (Register_cases reg (gauge_for cfg acc v))
    as [[V' _]|[(_ & R & E)|(_ & _ & E)]]; rewrite ?E; simpl.
  - simpl in V'. congruence.
  - now apply (registered_uniform (gauge_for cfg acc v) N eq_refl) in R.
  - rewrite map_app, in_app_iff. simpl. auto.
Qed.

(** An entry whose query fails leaves the registry as it was. *)
Lemma scrape_account_failed q reg acc e :
  snd (query q acc) = Some e ->
  scrape_account cfg env q reg acc
  = (reg, [EvQuery acc (query q acc); EvLog (queryDailyReward_error acc e)]).
Proof. intros Q. rewrite scrape_account_eq, Q. reflexivity. Qed.


(** The loop around its [i]-th entry. *)
Lemma scrape_accounts_at l1 acc l2 q reg :
  scrape_accounts cfg env q reg (l1 ++ acc :: l2) =
  let s := scrape_accounts cfg env q reg l1 in
  let m := scrape_account cfg env (q + List.length l1) (snd (fst s)) acc in
  let t := scrape_accounts cfg env (S (q + List.length l1)) (fst m) l2 in
  (fst (fst t), snd (fst t), snd s ++ snd m ++ snd t).
Proof.
  rewrite scrape_accounts_app. cbv zeta.
  rewrite scrape_accounts_cons. reflexivity.
Qed.

Lemma nth_error_parts (accounts : list string) i acc :
  nth_error accounts i = Some acc ->
  exists l1 l2, accounts = l1 ++ acc :: l2
                /\ List.length l1 = i
                /\ firstn i accounts = l1
                /\ firstn (S i) accounts = l1 ++ [acc].
Proof.
  intros Hn. destruct (nth_error_split accounts i Hn) as (l1 & l2 & -> & L).
  exists l1, l2. subst i. repeat split.
  - rewrite <- (Nat.add_0_r (List.length l1)), firstn_app_2.
    simpl. apply app_nil_r.
  - replace (S (List.length l1)) with (List.length l1 + 1)%nat by lia.
    rewrite firstn_app_2. reflexivity.
Qed.

End Run.

End ScrapeFacts.

(** ** One tick *)

Module TickFacts.

Import Prometheus RegistryFacts ScrapeFacts.

Section Run.

Context `{External}.
Variable cfg : Config.
Variable env : Env.
Variable accounts : list string.
Variable c : Clock.

Local Abbreviation final :=
  (registry_at cfg env accounts c (List.length accounts)).

Lemma registry_at_final :
  final = snd (fst (scrape_accounts cfg env (queries c) NewRegistry accounts)).
Proof. unfold registry_at. now rewrite firstn_all. Qed.

Lemma tick_eq :
  tick cfg env accounts c =
  let req := push_request cfg final in
  let err := Push env (pushes c) req in
  ({| queries := queries c + List.length accounts; pushes := S (pushes c) |},
   snd (scrape_accounts cfg env (queries c) NewRegistry accounts)
   ++ [EvPush req err;
       EvLog match err with
             | Some e => Could_not_push e
             | None => Metrics_pushed_successfully
             end]).
Proof.
  rewrite registry_at_final. unfold tick.
  pose proof (scrape_accounts_clock cfg env accounts (queries c) NewRegistry) as K.
  destruct (scrape_accounts cfg env (queries c) NewRegistry accounts)
    as [[q' reg'] evs]. simpl in *. now subst q'.
Qed.

Lemma pushed_app (a b : list Event) : pushed (a ++ b) = pushed a ++ pushed b.
Proof. induction a as [|[]]; simpl; rewrite ?IHa; reflexivity. Qed.

Lemma queried_app (a b : list Event) :
  queried (a ++ b) = queried a ++ queried b.
Proof. induction a as [|[]]; simpl; rewrite ?IHa; reflexivity. Qed.

Lemma logged_app (a b : list Event) : logged (a ++ b) = logged a ++ logged b.
Proof. induction a as [|[]]; simpl; rewrite ?IHa; reflexivity. Qed.

Lemma tick_pushed :
  pushed (snd (tick cfg env accounts c)) = [push_request cfg final].
Proof.
  rewrite tick_eq. cbv zeta. simpl snd.
  rewrite pushed_app, scrape_accounts_pushed. reflexivity.
Qed.

Lemma tick_queried : queried (snd (tick cfg env accounts c)) = accounts.
Proof.
  rewrite tick_eq. cbv zeta. simpl snd.
  rewrite queried_app, scrape_accounts_queried. simpl. apply app_nil_r.
Qed.

Lemma registry_at_step i acc :
  nth_error accounts i = Some acc ->
  registry_at cfg env accounts c (S i)
  = fst (scrape_account cfg env (queries c + i)
                        (registry_at cfg env accounts c i) acc).
Proof.
  intros Hn. destruct (nth_error_parts _ _ Hn) as (l1 & l2 & _ & L & F & FS).
  unfold registry_at. rewrite FS, F, scrape_accounts_app. cbv zeta.
  rewrite scrape_accounts_cons. simpl. now rewrite L.
Qed.

Lemma registry_at_named i :
  Forall (fun g => gauge_name g = metricsName cfg)
         (registry_at cfg env accounts c i).
Proof. apply scrape_accounts_named. constructor. Qed.

Lemma registry_at_NoDup i :
  NoDup (map gauge_account (registry_at cfg env accounts c i)).
Proof. apply scrape_accounts_NoDup; constructor. Qed.

(** What the registry holds when an entry is reached is still there at
    the push. *)
Lemma registry_at_kept i h :
  In h (registry_at cfg env accounts c i) -> In h final.
Proof.
  rewrite registry_at_final. unfold registry_at.
  rewrite <- (firstn_skipn i accounts) at 2.
  rewrite scrape_accounts_app. cbv zeta. simpl.
  apply scrape_accounts_keeps.
Qed.

(** The events of the [i]-th entry are part of the trace of the tick. *)
Lemma tick_events_at i acc :
  nth_error accounts i = Some acc ->
  exists before after,
    snd (tick cfg env accounts c)
    = before
      ++ snd (scrape_account cfg env (queries c + i)
                             (registry_at cfg env accounts c i) acc)
      ++ after.
Proof.
  intros Hn. destruct (nth_error_parts _ _ Hn) as (l1 & l2 & E & L & F & _).
  pose proof (scrape_accounts_at cfg env l1 acc l2 (queries c) NewRegistry) as A.
  rewrite <- E, L in A. cbv zeta in A.
  assert (R : registry_at cfg env accounts c i
              = snd (fst (scrape_accounts cfg env (queries c) NewRegistry l1)))
    by (unfold registry_at; now rewrite F).
  rewrite R, tick_eq. cbv zeta. simpl snd. rewrite A. simpl snd.
  match goal with
  | |- exists _ _, (?a ++ ?m ++ ?t) ++ ?tail = _ =>
      exists a, (t ++ tail); now rewrite <- !app_assoc
  end.
Qed.

Lemma provenance g :
  In g final ->
  exists i acc,
    nth_error accounts i = Some acc
    /\ answer env c i acc = (gauge_value g, None)
    /\ g = gauge_for cfg acc (gauge_value g)
    /\ desc_valid (metricsName cfg) acc = true.
Proof.
  rewrite registry_at_final. intros Hin.
  apply scrape_accounts_provenance in Hin as [[]|Hin]. exact Hin.
Qed.

(** The registry as entry [i] finds it holds a gauge for [acc] exactly
    when an earlier entry of that name was answered and its descriptor is
    valid. *)
Lemma registry_at_holds i acc :
  In acc (map gauge_account (registry_at cfg env accounts c i))
  <-> desc_valid (metricsName cfg) acc = true
      /\ exists j, (j < i)%nat /\ nth_error accounts j = Some acc
                   /\ snd (answer env c j acc) = None.
Proof.
  split.
  - intros Hin. apply in_map_iff in Hin as (g & <- & Hin).
    unfold registry_at in Hin.
    apply scrape_accounts_provenance in Hin
      as [[]|(j & a & Hn & Q & G & V)].
    assert (a = gauge_account g) as -> by (rewrite G; reflexivity).
    split; [exact V|]. exists j.
    assert (j < List.length (firstn i accounts))%nat
      by (apply nth_error_Some; congruence).
    rewrite length_firstn in *.
    repeat split; [lia| |unfold answer; now rewrite Q].
    rewrite nth_error_firstn in Hn.
    destruct (Nat.ltb_spec j i); [exact Hn|discriminate].
  - intros (V & j & Hlt & Hn & Q).
    assert (Hin : In acc (map gauge_account (registry_at cfg env accounts c (S j)))).
    { rewrite (registry_at_step _ Hn).
      unfold answer in Q.
      destruct (queryDailyReward (database env (queries c + j)) acc)
        as [v o] eqn:E. simpl in Q. subst o.
      eapply scrape_account_covers; eauto using registry_at_named. }
    apply in_map_iff in Hin as (g & <- & Hin). apply in_map.
    clear - Hin Hlt. unfold registry_at in *.
    assert (firstn i accounts
            = firstn (S j) accounts ++ skipn (S j) (firstn i accounts)) as ->.
    { rewrite <- (firstn_skipn (S j) (firstn i accounts)) at 1.
      rewrite firstn_firstn. now replace (Nat.min (S j) i) with (S j) by lia. }
    rewrite scrape_accounts_app. cbv zeta. simpl.
    now apply scrape_accounts_keeps.
Qed.

End Run.

End TickFacts.

(** ** Several ticks, and two runs side by side *)

Module RunFacts.

Import Prometheus ScrapeFacts TickFacts.

Lemma In_logged (line : LogLine) (evs : list Event) :
  In (EvLog line) evs -> In line (logged evs).
Proof.
  induction evs as [|ev rest IH]; simpl; [tauto|].
  intros [->|Hin]; [now left|].
  destruct ev; simpl; auto.
Qed.

Section Run.

Context `{External}.
Variable cfg : Config.
Variable accounts : list string.

Lemma ticks_S env n c :
  ticks cfg env accounts (S n) c =
  let s := ticks cfg env accounts n c in
  let t := tick cfg env accounts (fst s) in
  (fst t, snd s ++ snd t).
Proof.
  simpl. destruct (ticks cfg env accounts n c) as [c1 ev1]. simpl.
  destruct (tick cfg env accounts c1) as [c2 ev2]. reflexivity.
Qed.

(** The clock after [n] ticks does not depend on what the queries and the
    pushes answered. *)
Lemma ticks_clock env n c :
  fst (ticks cfg env accounts n c)
  = {| queries := queries c + n * List.length accounts;
       pushes := pushes c + n |}.
Proof.
  induction n as [|n IH].
  - simpl. rewrite !Nat.add_0_r. now destruct c.
  - rewrite ticks_S. cbv zeta. simpl fst. rewrite tick_eq. cbv zeta.
    simpl fst. rewrite IH. simpl. f_equal; lia.
Qed.

Lemma ticks_pushed env n c :
  List.length (pushed (snd (ticks cfg env accounts n c))) = n.
Proof.
  induction n as [|n IH]; [reflexivity|].
  rewrite ticks_S. cbv zeta. simpl snd.
  rewrite pushed_app, length_app, IH, tick_pushed. simpl. lia.
Qed.

Lemma ticks_queried env n c :
  queried (snd (ticks cfg env accounts n c)) = List.concat (repeat accounts n).
Proof.
  induction n as [|n IH]; [reflexivity|].
  rewrite ticks_S. cbv zeta. simpl snd.
  rewrite queried_app, IH, tick_queried.
  replace (S n) with (n + 1)%nat by lia.
  rewrite repeat_app, concat_app. simpl. now rewrite app_nil_r.
Qed.

(** A tick reads the environment only from its own clock on. *)
Lemma scrape_accounts_ext env env' l : forall q reg,
  (forall i, (q <= i)%nat -> database env' i = database env i) ->
  scrape_accounts cfg env' q reg l = scrape_accounts cfg env q reg l.
Proof.
  induction l as [|acc rest IH]; intros q reg A; [reflexivity|].
  rewrite !scrape_accounts_cons. cbv zeta.
  assert (E : scrape_account cfg env' q reg acc
              = scrape_account cfg env q reg acc)
    by (unfold scrape_account; now rewrite A).
  rewrite E, IH; [reflexivity|]. intros i Hi. apply A. lia.
Qed.

Lemma tick_ext env env' c :
  (forall i, (queries c <= i)%nat -> database env' i = database env i) ->
  (forall j, (pushes c <= j)%nat -> gateway env' j = gateway env j) ->
  tick cfg env' accounts c = tick cfg env accounts c.
Proof.
  intros A B. unfold tick. rewrite (scrape_accounts_ext env env' _ _ A).
  destruct (scrape_accounts cfg env (queries c) NewRegistry accounts)
    as [[q' reg'] evs].
  unfold Push. now rewrite B.
Qed.

End Run.

End RunFacts.

(** * The claims about the loop *)

Import Prometheus RegistryFacts ScrapeFacts TickFacts RunFacts.

(** Concrete runs use the setting of [Sample]. *)
#[local] Existing Instance Sample.external.









Lemma NoDup_map_eq (batch : list Gauge) (g h : Gauge) :
  NoDup (map gauge_account batch) -> In g batch -> In h batch ->
  gauge_account g = gauge_account h -> g = h.
Proof.
  induction batch as [|x rest IH]; simpl; [tauto|].
  intros ND Hg Hh E. inversion ND as [|? ? Hnot ND']; subst.
  destruct Hg as [->|Hg], Hh as [->|Hh]; auto.
  - destruct Hnot. rewrite E. now apply in_map.
  - destruct Hnot. rewrite <- E. now apply in_map.
Qed.

Lemma accepted_iff `{External} (cfg : Config) (env : Env)
      (accounts : list string) (c : Clock) (i : nat) (acc : string) (v : float64) :
  snd (Register (registry_at cfg env accounts c i) (gauge_for cfg acc v)) = None
  <-> desc_valid (metricsName cfg) acc = true
      /\ forall j, (j < i)%nat -> nth_error accounts j = Some acc ->
                   snd (answer env c j acc) <> None.
Proof.
  pose proof (registry_at_named cfg env accounts c i) as N.
  pose proof (registered_uniform (gauge_for cfg acc v) N eq_refl) as R.
  simpl in R. rewrite registry_at_holds in R.
  destruct (Register_cases (registry_at cfg env accounts c i) (gauge_for cfg acc v))
    as [[V E]|[(V & G & E)|(V & G & E)]]; rewrite E; simpl in *.
  - split; [discriminate|]. intros [V' _]. congruence.
  - split; [discriminate|]. intros [_ F].
    apply R in G as (_ & j & Hlt & Hn & Q). now destruct (F j Hlt Hn).
  - split; [|reflexivity]. intros _. split; [exact V|].
    intros j Hlt Hn Q.
    assert (T : registered (registry_at cfg env accounts c i)
                           (gauge_for cfg acc v) = true); [|congruence].
    apply R. split; [exact V|]. exists j. auto.
Qed.

(** Reading of C2 as it is stated, on the account list alice,alice when a
    payment to alice arrives between the two queries of the tick: the second
    query returns 6, its gauge is refused as a duplicate, and the one gauge
    published for alice carries 5. *)
Lemma published_gauge_counterexample :
  ~ (let cfg := Sample.cfg_of "alice,alice" 30 in
     let env := Sample.env_changing in
     let accounts := ["alice"; "alice"] in
     let c := {| queries := 0; pushes := 0 |} in
     forall i acc v,
       nth_error accounts i = Some acc ->
       answer env c i acc = (v, None) ->
       forall req, In req (pushed (snd (tick cfg env accounts c))) ->
         exists g, In g (push_metrics req)
                   /\ gauge_account g = acc /\ gauge_value g = v).
Proof.
  intros C.
  destruct (C 1%nat "alice" 6%float eq_refl ltac:(reflexivity)
              (push_request (Sample.cfg_of "alice,alice" 30)
                 [{| gauge_name := "daily_reward"; gauge_account := "alice";
                     gauge_value := 5%float |}])
              ltac:(left; reflexivity))
    as (g & [<-|[]] & _ & V).
  simpl in V.
  assert (E : PrimFloat.eqb 5%float 6%float = true)
    by (rewrite V; reflexivity).
  vm_compute in E. discriminate E.
Qed.

(** C2, amended.  In a tick, the gauge built for an account whose query
    returned [v] has the configured metric name, the label [account=<name>]
    and the value [v] itself, and it is what the registry is offered.  The
    registry takes it exactly when its descriptor is valid and no earlier
    entry of that name was answered in this tick, and then it is, unchanged,
    the one gauge of the pushed batch for that account.  Conversely every
    gauge of the pushed batch is such a gauge: its value is the value some
    query for its account returned in this tick. *)
Theorem published_gauge_is_query_value `{External} (cfg : Config) (env : Env)
        (accounts : list string) (c : Clock) :
  (forall i acc v,
      nth_error accounts i = Some acc ->
      answer env c i acc = (v, None) ->
      let reg := registry_at cfg env accounts c i in
      let g := {| gauge_name := metricsName cfg; gauge_account := acc;
                  gauge_value := v |} in
      scrape_account cfg env (queries c + i) reg acc
      = (fst (Register reg g),
         EvQuery acc (v, None)
         :: match snd (Register reg g) with
            | Some err => [EvLog (Register_gauge_error err)]
            | None => []
            end)
      /\ (snd (Register reg g) = None <->
          desc_valid (metricsName cfg) acc = true
          /\ forall j, (j < i)%nat -> nth_error accounts j = Some acc ->
                       snd (answer env c j acc) <> None)
      /\ (snd (Register reg g) = None ->
          forall req, In req (pushed (snd (tick cfg env accounts c))) ->
            In g (push_metrics req)
            /\ forall h, In h (push_metrics req) -> gauge_account h = acc ->
                         h = g))
  /\ (forall req g,
         In req (pushed (snd (tick cfg env accounts c))) ->
         In g (push_metrics req) ->
         gauge_name g = metricsName cfg
         /\ exists i,
             nth_error accounts i = Some (gauge_account g)
             /\ answer env c i (gauge_account g) = (gauge_value g, None)).
Proof.
  split.
  - intros i acc v Hn Q reg g. change g with (gauge_for cfg acc v).
    split; [|split].
    + rewrite scrape_account_eq. unfold answer in Q. rewrite Q. reflexivity.
    + apply accepted_iff.
    + subst reg. intros A req Hreq. rewrite tick_pushed in Hreq.
      destruct Hreq as [<-|[]]. simpl.
      assert (Hin : In (gauge_for cfg acc v)
                       (registry_at cfg env accounts c (List.length accounts))).
      { apply registry_at_kept with (i := S i).
        rewrite (@registry_at_step _ cfg env accounts c i acc Hn), scrape_account_eq.
        unfold answer in Q. rewrite Q. simpl.
        destruct (Register_cases (registry_at cfg env accounts c i)
                                 (gauge_for cfg acc v))
          as [[_ E]|[(_ & _ & E)|(_ & _ & E)]];
          rewrite E in A |- *; try discriminate.
        simpl. apply in_or_app. right. now left. }
      split; [apply <- Gather_In; exact Hin|]. intros h Hh Eh.
      apply -> Gather_In in Hh.
      exact (@NoDup_map_eq _ h (gauge_for cfg acc v)
                           (registry_at_NoDup cfg env accounts c _) Hh Hin Eh).
  - intros req g Hreq Hg. rewrite tick_pushed in Hreq.
    destruct Hreq as [<-|[]]. simpl in Hg. apply -> Gather_In in Hg.
    apply provenance in Hg as (i & acc & Hn & Q & G & _).
    assert (gauge_account g = acc) as -> by (rewrite G; reflexivity).
    split; [rewrite G; reflexivity|]. now exists i.
Qed.

Lemma published_gauge_is_query_value_witness :
  In {| gauge_name := "daily_reward"; gauge_account := "alice";
        gauge_value := 5%float |}
     (push_metrics
        (push_request (Sample.cfg_of "alice,bob" 30)
           (registry_at (Sample.cfg_of "alice,bob" 30) Sample.env_ok
                        ["alice"; "bob"] {| queries := 0; pushes := 0 |} 2))).
Proof.
  destruct (@published_gauge_is_query_value Sample.external
              (Sample.cfg_of "alice,bob" 30) Sample.env_ok
              ["alice"; "bob"] {| queries := 0; pushes := 0 |}) as [P _].
  destruct (P O "alice" 5%float) as (_ & _ & P'); [reflexivity | reflexivity |].
  apply P'; [reflexivity | left; reflexivity].
Defined.







Lemma main_running `{External} (cfg : Config) (env : Env)
      (accounts : list string) (period : Time.Duration) (log : list Event)
      (n : nat) :
  startup cfg env = Loop accounts period log ->
  main cfg env n
  = Running (fst (ticks cfg env accounts n {| queries := 0; pushes := 0 |}))
            (log ++ snd (ticks cfg env accounts n {| queries := 0; pushes := 0 |})).
Proof.
  intros St. unfold main. rewrite St.
  destruct (ticks cfg env accounts n _) as [c' evs]. reflexivity.
Qed.

(** C5.  A failure inside a tick is logged and nothing more: a failed query
    logs its account and error, a refused registration logs its error, a
    failed push logs its error; the tick still queries every entry of the
    list once and calls [Push] once; after any number of ticks the process is
    still running, its trace being the start line followed by the events of
    those ticks, and one tick more runs in full and adds its events whatever
    failed before; and the next tick starts at a clock, with the account
    list, that do not depend on what failed before, and does what it would do
    in any other run in which the database and the gateway answer it alike. *)
Theorem failures_inside_a_tick_are_survived `{External} (cfg : Config)
        (env : Env) (accounts : list string) (c : Clock) :
  (forall i acc e,
      nth_error accounts i = Some acc ->
      snd (answer env c i acc) = Some e ->
      In (queryDailyReward_error acc e) (logged (snd (tick cfg env accounts c))))
  /\ (forall i acc v err,
         nth_error accounts i = Some acc ->
         answer env c i acc = (v, None) ->
         snd (Register (registry_at cfg env accounts c i) (gauge_for cfg acc v))
         = Some err ->
         In (Register_gauge_error err)
            (logged (snd (tick cfg env accounts c))))
  /\ (forall req e,
         In (EvPush req (Some e)) (snd (tick cfg env accounts c)) ->
         In (Could_not_push e) (logged (snd (tick cfg env accounts c))))
  /\ queried (snd (tick cfg env accounts c)) = accounts
  /\ List.length (pushed (snd (tick cfg env accounts c))) = 1%nat
  /\ (forall period log n,
         startup cfg env = Loop accounts period log ->
         let c0 := {| queries := 0; pushes := 0 |} in
         let cn := fst (ticks cfg env accounts n c0) in
         main cfg env n
         = Running cn (log ++ snd (ticks cfg env accounts n c0))
         /\ main cfg env (S n)
            = Running (fst (tick cfg env accounts cn))
                      (log ++ snd (ticks cfg env accounts n c0)
                           ++ snd (tick cfg env accounts cn))
         /\ cn = {| queries := n * List.length accounts; pushes := n |})
  /\ (forall n,
         fst (ticks cfg env accounts n c)
         = {| queries := queries c + n * List.length accounts;
              pushes := pushes c + n |}
         /\ queried (snd (ticks cfg env accounts n c))
            = List.concat (repeat accounts n))
  /\ (forall env' n,
         (forall i, (queries c + n * List.length accounts <= i)%nat ->
                    database env' i = database env i) ->
         (forall k, (pushes c + n <= k)%nat -> gateway env' k = gateway env k) ->
         tick cfg env' accounts (fst (ticks cfg env' accounts n c))
         = tick cfg env accounts (fst (ticks cfg env accounts n c))).
Proof.
  split; [|split; [|split; [|split; [|split; [|split; [|split]]]]]].
  - intros i acc e Hn Q.
    destruct (@tick_events_at _ cfg env accounts c i acc Hn)
      as (before & after & T).
    unfold answer in Q. rewrite (scrape_account_failed _ _ _ _ _ Q) in T.
    rewrite T. apply In_logged. apply in_or_app. right. simpl. auto.
  - intros i acc v err Hn Q R.
    destruct (@tick_events_at _ cfg env accounts c i acc Hn)
      as (before & after & T).
    rewrite scrape_account_eq in T. unfold answer in Q. rewrite Q in T.
    simpl in T. rewrite R in T.
    rewrite T. apply In_logged. apply in_or_app. right. simpl. auto.
  - intros req e. rewrite tick_eq. cbv zeta. simpl snd. intros Hin.
    apply in_app_or in Hin as [Hin|Hin].
    + assert (P : In req (pushed (snd (scrape_accounts cfg env (queries c)
                                                       NewRegistry accounts)))).
      { revert Hin. generalize (snd (scrape_accounts cfg env (queries c)
                                                     NewRegistry accounts)).
        induction l as [|ev rest IH]; simpl; [tauto|].
        intros [->|Hin]; [now left|]. destruct ev; simpl; auto. }
      rewrite scrape_accounts_pushed in P. destruct P.
    + destruct Hin as [E|[E|[]]]; [|discriminate].
      injection E as _ E. rewrite logged_app, E.
      apply in_or_app. right. simpl. auto.
  - apply tick_queried.
  - now rewrite tick_pushed.
  - intros period log n St c0 cn.
    rewrite (@main_running _ cfg env accounts period log n St).
    rewrite (@main_running _ cfg env accounts period log (S n) St).
    split; [reflexivity|]. split.
    + rewrite ticks_S. reflexivity.
    + unfold cn. now rewrite ticks_clock.
  - intros n. split; [apply ticks_clock | apply ticks_queried].
  - intros env' n A B. rewrite !ticks_clock.
    apply tick_ext; simpl; assumption.
Qed.

Lemma failures_inside_a_tick_are_survived_witness :
  In (queryDailyReward_error "bob" "connection refused")
     (logged (snd (tick (Sample.cfg_of "alice,bob" 30) Sample.env_down
                        ["alice"; "bob"] {| queries := 0; pushes := 0 |})))
  /\ In (Could_not_push "connection refused")
        (logged (snd (tick (Sample.cfg_of "alice,bob" 30) Sample.env_down
                           ["alice"; "bob"] {| queries := 0; pushes := 0 |})))
  /\ main (Sample.cfg_of "alice,bob" 30) Sample.env_down 3
     = Running {| queries := 6; pushes := 3 |}
               ([EvLog (Start_monitoring 30 "http://localhost:9091" "reward"
                          "daily_reward" "monitor-1")]
                ++ snd (ticks (Sample.cfg_of "alice,bob" 30) Sample.env_down
                              ["alice"; "bob"] 3
                              {| queries := 0; pushes := 0 |})).
Proof.
  destruct (@failures_inside_a_tick_are_survived Sample.external
              (Sample.cfg_of "alice,bob" 30) Sample.env_down
              ["alice"; "bob"] {| queries := 0; pushes := 0 |})
    as (Q & _ & P & _ & _ & R & _).
  split; [|split].
  - apply (Q 1%nat "bob" "connection refused"); reflexivity.
  - apply (P (push_request (Sample.cfg_of "alice,bob" 30) [])).
    vm_compute. tauto.
  - destruct (R 30000000000
                [EvLog (Start_monitoring 30 "http://localhost:9091"
                          "reward" "daily_reward" "monitor-1")] 3%nat eq_refl)
      as (M & _ & K).
    rewrite M, K. reflexivity.
Defined.

(** * The claims about startup *)

(** The four ways through lines 27-50. *)
Ltac startup_cases cfg env :=
  unfold startup, Time.NewTicker;
  destruct (String.eqb_spec (accountStr cfg) "") as [Hacc|Hacc];
  [|destruct (sql_Open env (dsn cfg)) as [eo|] eqn:Hopen;
    [|destruct (db_Ping env (dsn cfg)) as [ep|] eqn:Hping;
      [|destruct (Z.leb_spec (Int64.mul (interval cfg) Time.Second) 0)
          as [Hper|Hper]]]].

Ltac break_hyps :=
  repeat match goal with
         | H : exists _, _ |- _ => destruct H
         | H : _ /\ _ |- _ => destruct H
         | H : _ \/ _ |- _ => destruct H
         end.

(** One direction of a characterisation of [startup], once the way through
    startup is known. *)
Ltac startup_side :=
  intros; break_hyps;
  first [ discriminate
        | congruence
        | lia
        | now eauto 8
        | now (repeat split; first [assumption | congruence | lia])
        | now (left; congruence)
        | now (right; left; congruence)
        | now (right; right; congruence) ].

(** Reading of C4 as it is stated, at an interval of zero seconds: no account
    is missing and the database answers, yet the process does not enter the
    loop. *)
Lemma fatal_iff_startup_error_counterexample :
  ~ (let cfg := Sample.cfg_of "alice" 0 in
     let env := Sample.env_ok in
     ((exists msg, startup cfg env = Fatal msg)
      <-> (accountStr cfg = "" \/ db_Ping env (dsn cfg) <> None))
     /\ (~ (accountStr cfg = "" \/ db_Ping env (dsn cfg) <> None) ->
         exists accounts period log, startup cfg env = Loop accounts period log)).
Proof.
  intros [_ L].
  destruct L as (accounts & period & log & E).
  - intros [A|P]; [discriminate A | now apply P].
  - vm_compute in E. discriminate E.
Qed.

(** C4, amended.  The process ends through [log.Fatalf] (status 1, before the
    ticker exists and before any tick) exactly when the account string is
    empty or the database handle cannot be opened or does not answer the
    ping.  Otherwise it enters the loop, and is then still running after any
    number of ticks, exactly when the ticker period is positive; when the
    period is not positive it panics at the construction of the ticker. *)
Theorem startup_outcomes `{External} (cfg : Config) (env : Env) :
  ((exists msg, startup cfg env = Fatal msg)
   <-> (accountStr cfg = "" \/ sql_Open env (dsn cfg) <> None
        \/ db_Ping env (dsn cfg) <> None))
  /\ ((exists msg, startup cfg env = Panic msg)
      <-> (accountStr cfg <> "" /\ sql_Open env (dsn cfg) = None
           /\ db_Ping env (dsn cfg) = None
           /\ Int64.mul (interval cfg) Time.Second <= 0))
  /\ ((exists accounts period log, startup cfg env = Loop accounts period log)
      <-> (accountStr cfg <> "" /\ sql_Open env (dsn cfg) = None
           /\ db_Ping env (dsn cfg) = None
           /\ 0 < Int64.mul (interval cfg) Time.Second))
  /\ (forall msg n, startup cfg env = Fatal msg -> main cfg env n = Exited 1 msg)
  /\ (forall accounts period log n,
         startup cfg env = Loop accounts period log ->
         exists c trace,
           main cfg env n = Running c trace /\ pushes c = n
           /\ List.length (pushed trace) = n).
Proof.
  split; [|split; [|split; [|split]]].
  - startup_cases cfg env; split; startup_side.
  - startup_cases cfg env; split; startup_side.
  - startup_cases cfg env; split; startup_side.
  - intros msg n E. unfold main. now rewrite E.
  - intros accounts period log n E.
    rewrite (@main_running _ cfg env accounts period log n E).
    do 2 eexists. split; [reflexivity|]. split.
    + now rewrite ticks_clock.
    + assert (P : pushed log = []).
      { revert E. startup_cases cfg env; try discriminate.
        intros [= _ _ <-]. reflexivity. }
      rewrite pushed_app, P. simpl. apply ticks_pushed.
Qed.

Lemma startup_outcomes_witness :
  (exists msg, startup (Sample.cfg_of "alice,bob" 30) Sample.env_unreachable
               = Fatal msg)
  /\ exists c trace,
      main (Sample.cfg_of "alice,bob" 30) Sample.env_ok 5 = Running c trace
      /\ pushes c = 5%nat /\ List.length (pushed trace) = 5%nat.
Proof.
  destruct (@startup_outcomes Sample.external (Sample.cfg_of "alice,bob" 30)
                              Sample.env_unreachable) as (F & _).
  destruct (@startup_outcomes Sample.external (Sample.cfg_of "alice,bob" 30)
                              Sample.env_ok) as (_ & _ & _ & _ & R).
  split.
  - apply F. right. right. simpl. discriminate.
  - apply (R ["alice"; "bob"] 30000000000
             [EvLog (Start_monitoring 30 "http://localhost:9091" "reward"
                       "daily_reward" "monitor-1")] 5%nat).
    reflexivity.
Defined.

(** Reading of C9 as it is stated, at an interval of -9223372037 seconds: the
    product with [time.Second] leaves the range of [int64] and wraps around to
    a positive period, so the ticker is built and the loop is entered. *)
Lemma nonpositive_interval_panics_counterexample :
  ~ (let cfg := Sample.cfg_of "alice" (-9223372037) in
     let env := Sample.env_ok in
     accountStr cfg <> "" ->
     sql_Open env (dsn cfg) = None ->
     db_Ping env (dsn cfg) = None ->
     Int64.in_range (interval cfg) ->
     interval cfg <= 0 ->
     exists msg, startup cfg env = Panic msg).
Proof.
  intros C. destruct C as [msg E].
  - discriminate.
  - reflexivity.
  - reflexivity.
  - unfold Int64.in_range, Int64.min_int, Int64.max_int. simpl. lia.
  - simpl. lia.
  - vm_compute in E. discriminate E.
Qed.

(** C9, amended.  With a non-empty account string and a database that opens
    and answers the ping, the program panics at the construction of the
    ticker whenever the 64-bit product of the interval and [time.Second] is
    zero or negative; this is so for every interval from -9223372036 to 0. *)
Theorem nonpositive_period_panics `{External} (cfg : Config) (env : Env) :
  accountStr cfg <> "" ->
  sql_Open env (dsn cfg) = None ->
  db_Ping env (dsn cfg) = None ->
  (Int64.mul (interval cfg) Time.Second <= 0 ->
   startup cfg env = Panic "non-positive interval for NewTicker"
   /\ forall n, main cfg env n = Panicked "non-positive interval for NewTicker")
  /\ (-9223372036 <= interval cfg <= 0 ->
      startup cfg env = Panic "non-positive interval for NewTicker"
      /\ forall n, main cfg env n = Panicked "non-positive interval for NewTicker").
Proof.
  intros A O P.
  assert (G : Int64.mul (interval cfg) Time.Second <= 0 ->
              startup cfg env = Panic "non-positive interval for NewTicker"
              /\ forall n, main cfg env n
                           = Panicked "non-positive interval for NewTicker").
  { intros D.
    assert (E : startup cfg env = Panic "non-positive interval for NewTicker")
      by (startup_cases cfg env; congruence || lia).
    split; [exact E|]. intros n. unfold main. now rewrite E. }
  split; [exact G|].
  intros R. apply G. rewrite Int64Facts.seconds_exact by lia. lia.
Qed.

Lemma nonpositive_period_panics_witness :
  startup (Sample.cfg_of "alice" (-5)) Sample.env_ok
  = Panic "non-positive interval for NewTicker".
Proof.
  destruct (@nonpositive_period_panics Sample.external
              (Sample.cfg_of "alice" (-5)) Sample.env_ok) as [P R];
    [discriminate | reflexivity | reflexivity |].
  apply R. simpl. lia.
Defined.

(** Reading of C7 as it is stated, with no flag given: the account string
    takes its default, the empty string, and the program refuses it although
    the database answers and the interval is the default. *)
Lemma string_flags_accepted_counterexample :
  ~ (let cfg := parse_flags no_flags in
     let env := Sample.env_ok in
     accountStr cfg = ""
     /\ exists accounts period log, startup cfg env = Loop accounts period log).
Proof.
  intros (_ & accounts & period & log & E). vm_compute in E. discriminate E.
Qed.

(** C7, amended.  A flag that is absent takes its default: 30 for the
    interval, http://localhost:9091 for the gateway address, the empty string
    for the account list, the job, the metric name, the instance and the DSN;
    a flag that is given is taken as it is.  The job, the metric name, the
    instance and the gateway address are accepted as they are: the outcome of
    startup does not depend on them, and whatever they are, empty included,
    the loop is entered as soon as the account string is not empty, the
    database opens and answers, and the period is positive.  The DSN is
    handed to [sql.Open] and [Ping], and the process ends when either fails
    on it.  The account string is examined: when it is empty the process
    ends at once. *)
Theorem flag_defaults_and_acceptance `{External} :
  (forall cl, arg_interval cl = None -> interval (parse_flags cl) = 30)
  /\ (forall cl, arg_pushgateway cl = None ->
                 pushgateway (parse_flags cl) = "http://localhost:9091")
  /\ (forall cl,
         (arg_account cl = None -> accountStr (parse_flags cl) = "")
         /\ (arg_job cl = None -> job (parse_flags cl) = "")
         /\ (arg_metrics cl = None -> metricsName (parse_flags cl) = "")
         /\ (arg_instance cl = None -> instance (parse_flags cl) = "")
         /\ (arg_dsn cl = None -> dsn (parse_flags cl) = ""))
  /\ (forall cl,
         (forall n, arg_interval cl = Some n -> interval (parse_flags cl) = n)
         /\ (forall s, arg_pushgateway cl = Some s ->
                       pushgateway (parse_flags cl) = s)
         /\ (forall s, arg_account cl = Some s -> accountStr (parse_flags cl) = s)
         /\ (forall s, arg_job cl = Some s -> job (parse_flags cl) = s)
         /\ (forall s, arg_metrics cl = Some s -> metricsName (parse_flags cl) = s)
         /\ (forall s, arg_instance cl = Some s -> instance (parse_flags cl) = s)
         /\ (forall s, arg_dsn cl = Some s -> dsn (parse_flags cl) = s))
  /\ (forall cfg env,
         accountStr cfg <> "" ->
         sql_Open env (dsn cfg) = None ->
         db_Ping env (dsn cfg) = None ->
         0 < Int64.mul (interval cfg) Time.Second ->
         startup cfg env
         = Loop (Strings.Split (accountStr cfg) comma)
                (Int64.mul (interval cfg) Time.Second)
                [EvLog (Start_monitoring (interval cfg) (pushgateway cfg)
                          (job cfg) (metricsName cfg) (instance cfg))])
  /\ (forall cfg env,
         accountStr cfg = "" -> startup cfg env = Fatal No_account_provided)
  /\ (forall cfg env e,
         accountStr cfg <> "" ->
         sql_Open env (dsn cfg) = Some e ->
         startup cfg env = Fatal (Failed_to_open_DB e))
  /\ (forall cfg env e,
         accountStr cfg <> "" ->
         sql_Open env (dsn cfg) = None ->
         db_Ping env (dsn cfg) = Some e ->
         startup cfg env = Fatal (DB_ping_error e))
  /\ (forall cfg cfg' env,
         accountStr cfg' = accountStr cfg ->
         interval cfg' = interval cfg ->
         dsn cfg' = dsn cfg ->
         (forall msg, startup cfg' env = Fatal msg <-> startup cfg env = Fatal msg)
         /\ (forall msg,
                startup cfg' env = Panic msg <-> startup cfg env = Panic msg)
         /\ (forall accounts period,
                (exists log, startup cfg' env = Loop accounts period log)
                <-> (exists log, startup cfg env = Loop accounts period log))).
Proof.
  split; [|split; [|split; [|split; [|split; [|split; [|split; [|split]]]]]]].
  - intros cl E. simpl. now rewrite E.
  - intros cl E. simpl. now rewrite E.
  - intros cl. repeat split; intros E; simpl; now rewrite E.
  - intros cl. repeat split; intros s E; simpl; now rewrite E.
  - intros cfg env A O P D.
    startup_cases cfg env; congruence || lia.
  - intros cfg env A. unfold startup. now rewrite A.
  - intros cfg env e A O. startup_cases cfg env; congruence.
  - intros cfg env e A O P. startup_cases cfg env; congruence.
  - intros cfg cfg' env A I D. unfold startup. rewrite A, I, D.
    destruct (String.eqb (accountStr cfg) ""), (sql_Open env (dsn cfg)),
      (db_Ping env (dsn cfg)),
      (Time.NewTicker (Int64.mul (interval cfg) Time.Second));
      (split; [|split]); intros; split;
      try (intros E; exact E);
      try (intros E; discriminate E);
      try (intros [l E]; discriminate E);
      try (intros [l E]; injection E as <- <- _; eauto).
Qed.

Lemma flag_defaults_and_acceptance_witness :
  interval (parse_flags no_flags) = 30
  /\ pushgateway (parse_flags no_flags) = "http://localhost:9091"
  /\ startup {| accountStr := "alice"; interval := 30;
                pushgateway := "http://localhost:9091"; job := "";
                metricsName := ""; instance := ""; dsn := "" |}
             Sample.env_ok
     = Loop ["alice"] 30000000000
            [EvLog (Start_monitoring 30 "http://localhost:9091" "" "" "")]
  /\ startup (parse_flags no_flags) Sample.env_ok = Fatal No_account_provided.
Proof.
  destruct (@flag_defaults_and_acceptance Sample.external)
    as (I & G & _ & _ & L & F & _).
  split; [|split; [|split]].
  - apply I. reflexivity.
  - apply G. reflexivity.
  - apply (L {| accountStr := "alice"; interval := 30;
                pushgateway := "http://localhost:9091"; job := "";
                metricsName := ""; instance := ""; dsn := "" |} Sample.env_ok);
      [discriminate | reflexivity | reflexivity | reflexivity].
  - apply F. reflexivity.
Defined.

(** C10.  The account list is [strings.Split] of the account string at every
    comma and nothing else: it has one entry more than the string has commas,
    no entry contains a comma, joining the entries with commas gives the
    string back (so nothing is trimmed, dropped or merged), it is the list the
    loop runs on, and a tick queries its entries once each, in order.  The
    string made of one comma is not the empty string, and gives two empty
    account names, both queried by every tick. *)
Theorem account_list_is_plain_split `{External} (cfg : Config) (env : Env) :
  let accounts := Strings.Split (accountStr cfg) comma in
  List.length accounts = S (Strings.Count (accountStr cfg) comma)
  /\ Forall (fun a => Strings.Count a comma = O) accounts
  /\ Strings.Join accounts comma = accountStr cfg
  /\ (forall l period log, startup cfg env = Loop l period log -> l = accounts)
  /\ (forall c, queried (snd (tick cfg env accounts c)) = accounts)
  /\ Strings.Split " a, b ,,a" comma = [" a"; " b "; ""; "a"]
  /\ (accountStr cfg = "," ->
      String.eqb (accountStr cfg) "" = false
      /\ accounts = [""; ""]
      /\ (sql_Open env (dsn cfg) = None ->
          db_Ping env (dsn cfg) = None ->
          0 < Int64.mul (interval cfg) Time.Second ->
          (exists period log, startup cfg env = Loop [""; ""] period log)
          /\ forall n c,
              queried (snd (ticks cfg env [""; ""] n c))
              = List.concat (repeat [""; ""] n))).
Proof.
  intros accounts. subst accounts.
  split; [|split; [|split; [|split; [|split; [|split]]]]].
  - apply SplitFacts.Split_length.
  - apply SplitFacts.Split_pieces_free.
  - apply SplitFacts.Join_Split.
  - intros l period log.
    startup_cases cfg env; intros E; try discriminate E.
    now injection E as <- _ _.
  - intros c. apply tick_queried.
  - reflexivity.
  - intros E. rewrite E. split; [reflexivity|]. split; [reflexivity|].
    intros O P D. split.
    + startup_cases cfg env; try congruence; try lia.
      rewrite E. simpl. eauto.
    + intros n c. apply ticks_queried.
Qed.

Lemma account_list_is_plain_split_witness :
  (exists period log,
      startup (Sample.cfg_of "," 30) Sample.env_ok = Loop [""; ""] period log)
  /\ queried (snd (ticks (Sample.cfg_of "," 30) Sample.env_ok [""; ""] 2
                         {| queries := 0; pushes := 0 |}))
     = [""; ""; ""; ""].
Proof.
  destruct (@account_list_is_plain_split Sample.external
              (Sample.cfg_of "," 30) Sample.env_ok)
    as (_ & _ & _ & _ & _ & _ & S).
  destruct S as (_ & _ & S); [reflexivity|].
  destruct S as (L & Q); [reflexivity | reflexivity | reflexivity |].
  split; [exact L|]. apply (Q 2%nat).
Defined.

(** * The claim about the query *)

Lemma selected_spec `{External} (db : DB) (account : string)
      (row : epoch_distributor_row) :
  In row (selected db account)
  <-> In row (epoch_distributor db)
      /\ ed_project row = "ALEO"
      /\ (exists a, In a (miner_account db) /\ ma_name a = account
                    /\ ma_id a = ed_miner_account_id row)
      /\ shanghai_date (ed_epoch_time row) = shanghai_date (NOW db).
Proof.
  unfold selected, where_clause, account_id_in.
  rewrite filter_In, !andb_true_iff, existsb_exists, String.eqb_eq, Z.eqb_eq.
  split.
  - intros (Hin & (P & a & Ha & M) & D).
    apply andb_true_iff in M as [N I].
    apply String.eqb_eq in N. apply Z.eqb_eq in I. eauto 8.
  - intros (Hin & P & (a & Ha & N & I) & D).
    repeat split; auto. exists a. split; [exact Ha|].
    apply andb_true_iff. split; [now apply String.eqb_eq | now apply Z.eqb_eq].
Qed.

(** C8.  When the statement runs without error, [queryDailyReward] returns,
    with a nil error, the float64 scanned from the sum of the [reward] of the
    selected rows divided by 10^6, where the selected rows are exactly those
    of project ALEO, of an account of the given name, whose time falls on the
    same day in Asia/Shanghai as [NOW()]; when no row is selected it returns
    0 and a nil error; when the statement fails it returns the error (and 0). *)
Theorem queryDailyReward_spec `{External} (db : DB) (account : string) :
  (fault db = None ->
   exists q,
     queryDailyReward db account = (scan_float64 q, None)
     /\ (q == inject_Z (fold_right Z.add 0%Z
                                   (map ed_reward (selected db account)))
              / inject_Z 1000000)%Q)
  /\ (forall row,
         In row (selected db account)
         <-> In row (epoch_distributor db)
             /\ ed_project row = "ALEO"
             /\ (exists a, In a (miner_account db) /\ ma_name a = account
                           /\ ma_id a = ed_miner_account_id row)
             /\ shanghai_date (ed_epoch_time row) = shanghai_date (NOW db))
  /\ (fault db = None -> selected db account = [] ->
      queryDailyReward db account = (0%float, None))
  /\ (forall err, fault db = Some err ->
                  queryDailyReward db account = (0%float, Some err)).
Proof.
  split; [|split; [|split]].
  - intros F. unfold queryDailyReward, QueryRow_Scan, sqlStmt. rewrite F.
    eexists. split; [reflexivity|].
    destruct (map ed_reward (selected db account)) as [|r rs]; simpl.
    + reflexivity.
    + reflexivity.
  - apply selected_spec.
  - intros F E. unfold queryDailyReward, QueryRow_Scan, sqlStmt.
    rewrite F, E. simpl. now rewrite scan_float64_zero.
  - intros err F. unfold queryDailyReward, QueryRow_Scan. now rewrite F.
Qed.

Lemma queryDailyReward_spec_witness :
  queryDailyReward Sample.db0 "carol" = (0%float, None)
  /\ queryDailyReward (Sample.down Sample.db0) "alice"
     = (0%float, Some "connection refused")
  /\ exists q, queryDailyReward Sample.db0 "alice" = (scan_float64 q, None)
               /\ (q == 5)%Q.
Proof.
  destruct (@queryDailyReward_spec Sample.external Sample.db0 "carol")
    as (_ & _ & Z & _).
  destruct (@queryDailyReward_spec Sample.external (Sample.down Sample.db0)
                                   "alice") as (_ & _ & _ & E).
  destruct (@queryDailyReward_spec Sample.external Sample.db0 "alice")
    as (S & _).
  split; [|split].
  - apply Z; reflexivity.
  - apply E. reflexivity.
  - destruct S as (q & Q & V); [reflexivity|].
    exists q. split; [exact Q|]. rewrite V. reflexivity.
Defined.

(** * Scenarios *)

(** alice was paid 5 units today and bob nothing: one push carries both
    gauges, 5 and 0. *)
Example scenario_alice_and_bob :
  pushed (snd (tick (Sample.cfg_of "alice,bob" 30) Sample.env_ok
                    ["alice"; "bob"] {| queries := 0; pushes := 0 |}))
  = [{| push_url := "http://localhost:9091"; push_job := "reward";
        push_instance := "monitor-1";
        push_metrics :=
          [{| gauge_name := "daily_reward"; gauge_account := "alice";
              gauge_value := 5%float |};
           {| gauge_name := "daily_reward"; gauge_account := "bob";
              gauge_value := 0%float |}] |}].
Proof. reflexivity. Qed.

(** With the metric name left at its default every gauge is refused, each
    refusal is logged, and the push carries nothing. *)
Example scenario_default_metric_name :
  let cfg := {| accountStr := "alice,bob"; interval := 30;
                pushgateway := "http://localhost:9091"; job := "reward";
                metricsName := ""; instance := "monitor-1"; dsn := "" |} in
  snd (tick cfg Sample.env_ok ["alice"; "bob"] {| queries := 0; pushes := 0 |})
  = [EvQuery "alice" (5%float, None);
     EvLog (Register_gauge_error InvalidDescriptor);
     EvQuery "bob" (0%float, None);
     EvLog (Register_gauge_error InvalidDescriptor);
     EvPush (push_request cfg []) None;
     EvLog Metrics_pushed_successfully].
Proof. reflexivity. Qed.

(** The database cannot be reached at startup: the process exits with
    status 1 and no tick ever runs. *)
Example scenario_database_unreachable :
  main (Sample.cfg_of "alice,bob" 30) Sample.env_unreachable 3
  = Exited 1 (DB_ping_error "connection refused").
Proof. reflexivity. Qed.

(** * Further properties of the loop *)

(** The least index at which a decidable property holds. *)
Lemma least_index (P : nat -> bool) (i : nat) :
  P i = true ->
  exists i0, (i0 <= i)%nat /\ P i0 = true
             /\ forall j, (j < i0)%nat -> P j = false.
Proof.
  assert (Q : forall n,
             (forall j, (j < n)%nat -> P j = false)
             \/ exists i0, (i0 < n)%nat /\ P i0 = true
                           /\ forall j, (j < i0)%nat -> P j = false).
  { induction n as [|n [IH|(i0 & L & T & F)]].
    - left. intros j Hj. lia.
    - destruct (P n) eqn:E.
      + right. exists n. auto.
      + left. intros j Hj. destruct (Nat.eq_dec j n) as [->|]; [exact E|].
        apply IH. lia.
    - right. exists i0. auto. }
  intros T. destruct (Q (S i)) as [F|(i0 & L & T0 & F)].
  - rewrite F in T by lia. discriminate.
  - exists i0. repeat split; auto. lia.
Qed.

(** What a successful call of [queryDailyReward] says about the database. *)
Lemma queryDailyReward_ok `{External} (db : DB) (account : string) (v : float64) :
  queryDailyReward db account = (v, None) ->
  fault db = None /\ v = scan_float64 (sqlStmt db account).
Proof.
  unfold queryDailyReward, QueryRow_Scan.
  destruct (fault db); [discriminate|]. now intros [= <-].
Qed.

Lemma sqlStmt_sum `{External} (db : DB) (account : string) :
  (sqlStmt db account
   == inject_Z (fold_right Z.add 0%Z (map ed_reward (selected db account)))
      / inject_Z 1000000)%Q.
Proof.
  unfold sqlStmt.
  destruct (map ed_reward (selected db account)); simpl; reflexivity.
Qed.

(** The gauge of an entry that the registry takes is in the registry at the
    push. *)
Lemma first_entry_registered `{External} (cfg : Config) (env : Env)
      (accounts : list string) (c : Clock) (i : nat) (acc : string)
      (v : float64) :
  nth_error accounts i = Some acc ->
  answer env c i acc = (v, None) ->
  desc_valid (metricsName cfg) acc = true ->
  (forall j, (j < i)%nat -> nth_error accounts j = Some acc ->
             snd (answer env c j acc) <> None) ->
  In (gauge_for cfg acc v)
     (registry_at cfg env accounts c (List.length accounts)).
Proof.
  intros Hn Q V F.
  apply registry_at_kept with (i := S i).
  rewrite (@registry_at_step _ cfg env accounts c i acc Hn), scrape_account_eq.
  unfold answer in Q. rewrite Q. simpl.
  assert (A : snd (Register (registry_at cfg env accounts c i)
                            (gauge_for cfg acc v)) = None)
    by (apply accepted_iff; auto).
  destruct (Register_cases (registry_at cfg env accounts c i)
                           (gauge_for cfg acc v))
    as [[_ E]|[(_ & _ & E)|(_ & _ & E)]];
    rewrite E in A |- *; try discriminate.
  simpl. apply in_or_app. right. now left.
Qed.

(** The registry at the push holds a gauge exactly when it is the gauge of
    the first answered entry of its name and its descriptor is valid. *)
Lemma registry_membership `{External} (cfg : Config) (env : Env)
      (accounts : list string) (c : Clock) (g : Gauge) :
  In g (registry_at cfg env accounts c (List.length accounts))
  <-> exists i acc v,
       nth_error accounts i = Some acc
       /\ answer env c i acc = (v, None)
       /\ desc_valid (metricsName cfg) acc = true
       /\ (forall j, (j < i)%nat -> nth_error accounts j = Some acc ->
                     snd (answer env c j acc) <> None)
       /\ g = {| gauge_name := metricsName cfg; gauge_account := acc;
                 gauge_value := v |}.
Proof.
  split.
  - intros Hg.
    destruct (provenance cfg env accounts c g Hg) as (i & acc & Hn & Q & G & V).
    pose (P := fun j =>
                 match nth_error accounts j with
                 | Some a =>
                     String.eqb a acc
                     && match snd (answer env c j acc) with
                        | None => true
                        | Some _ => false
                        end
                 | None => false
                 end).
    assert (Pi : P i = true).
    { unfold P. rewrite Hn, String.eqb_refl, Q. reflexivity. }
    destruct (least_index P i Pi) as (i0 & _ & P0 & Least).
    unfold P in P0.
    destruct (nth_error accounts i0) as [a|] eqn:Hn0; [|discriminate].
    apply andb_true_iff in P0 as [Ea Q0]. apply String.eqb_eq in Ea. subst a.
    destruct (answer env c i0 acc) as [v0 o] eqn:A0. simpl in Q0.
    destruct o; [discriminate|].
    assert (F : forall j, (j < i0)%nat -> nth_error accounts j = Some acc ->
                          snd (answer env c j acc) <> None).
    { intros j Hj Hnj Qj. specialize (Least j Hj). unfold P in Least.
      rewrite Hnj, String.eqb_refl, Qj in Least. discriminate. }
    exists i0, acc, v0. repeat split; auto.
    pose proof (@first_entry_registered _ cfg env accounts c i0 acc v0
                                        Hn0 A0 V F) as Hin.
    apply (@NoDup_map_eq _ g (gauge_for cfg acc v0)
                         (registry_at_NoDup cfg env accounts c _) Hg Hin).
    rewrite G. reflexivity.
  - intros (i & acc & v & Hn & Q & V & F & ->).
    exact (@first_entry_registered _ cfg env accounts c i acc v Hn Q V F).
Qed.

(** X1.  The batch pushed by a tick holds a gauge exactly when it is the
    gauge of the first entry of its name whose query succeeded in the tick,
    and its descriptor is valid: among several answers for one name the first
    is published, never a later one. *)
Theorem first_answer_is_published `{External} (cfg : Config) (env : Env)
        (accounts : list string) (c : Clock) (req : PushRequest) (g : Gauge) :
  In req (pushed (snd (tick cfg env accounts c))) ->
  (In g (push_metrics req)
   <-> exists i acc v,
        nth_error accounts i = Some acc
        /\ answer env c i acc = (v, None)
        /\ desc_valid (metricsName cfg) acc = true
        /\ (forall j, (j < i)%nat -> nth_error accounts j = Some acc ->
                      snd (answer env c j acc) <> None)
        /\ g = {| gauge_name := metricsName cfg; gauge_account := acc;
                  gauge_value := v |}).
Proof.
  intros Hreq. rewrite tick_pushed in Hreq. destruct Hreq as [<-|[]].
  simpl. rewrite Gather_In.
  apply registry_membership.
Qed.

Lemma first_answer_is_published_witness :
  In {| gauge_name := "daily_reward"; gauge_account := "alice";
        gauge_value := 5%float |}
     (push_metrics
        (push_request (Sample.cfg_of "alice,alice" 30)
           (registry_at (Sample.cfg_of "alice,alice" 30) Sample.env_changing
                        ["alice"; "alice"] {| queries := 0; pushes := 0 |} 2)))
  /\ ~ In {| gauge_name := "daily_reward"; gauge_account := "alice";
             gauge_value := 6%float |}
          (push_metrics
             (push_request (Sample.cfg_of "alice,alice" 30)
                (registry_at (Sample.cfg_of "alice,alice" 30)
                             Sample.env_changing ["alice"; "alice"]
                             {| queries := 0; pushes := 0 |} 2))).
Proof.
  split.
  - apply (@first_answer_is_published Sample.external
             (Sample.cfg_of "alice,alice" 30) Sample.env_changing
             ["alice"; "alice"] {| queries := 0; pushes := 0 |});
      [left; reflexivity|].
    exists 0%nat, "alice", 5%float.
    repeat split; try reflexivity. intros j Hj. lia.
  - intros Hin.
    apply (@first_answer_is_published Sample.external
             (Sample.cfg_of "alice,alice" 30) Sample.env_changing
             ["alice"; "alice"] {| queries := 0; pushes := 0 |}) in Hin;
      [|left; reflexivity].
    destruct Hin as (i & acc & v & Hn & Q & _ & F & G).
    injection G as <- <-.
    destruct i as [|[|i]]; [| |destruct i; discriminate Hn].
    + assert (V : fst (answer Sample.env_changing
                              {| queries := 0; pushes := 0 |} 0 "alice")
                  = 6%float) by (rewrite Q; reflexivity).
      assert (E : PrimFloat.eqb 5%float 6%float = true)
        by (rewrite <- V; reflexivity).
      vm_compute in E. discriminate E.
    + apply (F 0%nat); [lia | reflexivity | reflexivity].
Defined.



(** X3.  Every value a tick publishes is the float64 scanned from today's sum
    of rewards, divided by 10^6, of the gauge's account in the database as
    the query of one of its entries found it, and that query met no error. *)
Theorem published_value_is_todays_sum `{External} (cfg : Config) (env : Env)
        (accounts : list string) (c : Clock) (req : PushRequest) (g : Gauge) :
  In req (pushed (snd (tick cfg env accounts c))) ->
  In g (push_metrics req) ->
  exists i q,
    nth_error accounts i = Some (gauge_account g)
    /\ fault (database env (queries c + i)) = None
    /\ gauge_value g = scan_float64 q
    /\ (q == inject_Z
               (fold_right Z.add 0%Z
                  (map ed_reward
                       (selected (database env (queries c + i))
                                 (gauge_account g))))
             / inject_Z 1000000)%Q.
Proof.
  intros Hreq Hg. rewrite tick_pushed in Hreq. destruct Hreq as [<-|[]].
  simpl in Hg. apply -> Gather_In in Hg.
  destruct (provenance cfg env accounts c g Hg) as (i & acc & Hn & Q & G & _).
  assert (gauge_account g = acc) as -> by (rewrite G; reflexivity).
  unfold answer in Q. apply queryDailyReward_ok in Q as [F V].
  exists i, (sqlStmt (database env (queries c + i)) acc).
  repeat split; auto. apply sqlStmt_sum.
Qed.

Lemma published_value_is_todays_sum_witness :
  exists i q,
    nth_error ["alice"; "bob"] i = Some "alice"
    /\ fault (database Sample.env_ok (0 + i)) = None
    /\ 5%float = scan_float64 q
    /\ (q == inject_Z
               (fold_right Z.add 0%Z
                  (map ed_reward
                       (selected (database Sample.env_ok (0 + i)) "alice")))
             / inject_Z 1000000)%Q.
Proof.
  apply (@published_value_is_todays_sum Sample.external
           (Sample.cfg_of "alice,bob" 30) Sample.env_ok ["alice"; "bob"]
           {| queries := 0; pushes := 0 |}
           (push_request (Sample.cfg_of "alice,bob" 30)
              (registry_at (Sample.cfg_of "alice,bob" 30) Sample.env_ok
                           ["alice"; "bob"] {| queries := 0; pushes := 0 |} 2))
           {| gauge_name := "daily_reward"; gauge_account := "alice";
              gauge_value := 5%float |}).
  - left. reflexivity.
  - left. reflexivity.
Defined.

(** The statement reads the database through the two tables and the day of
    [NOW()] only. *)
Lemma sqlStmt_steady `{External} (db db' : DB) (account : string) :
  miner_account db' = miner_account db ->
  epoch_distributor db' = epoch_distributor db ->
  shanghai_date (NOW db') = shanghai_date (NOW db) ->
  sqlStmt db' account = sqlStmt db account.
Proof.
  intros M E D. unfold sqlStmt, selected, where_clause, account_id_in.
  now rewrite M, E, D.
Qed.

(** X4.  While the two tables do not change, the day of [NOW()] in
    Asia/Shanghai stays the same and the statements run without error, the
    batch of every tick holds exactly one gauge for each configured account
    name with a valid descriptor, however often the name is listed, and its
    value is the same in every tick: the scan of the statement's value for
    that name. *)
Theorem steady_database_steady_batch `{External} (cfg : Config) (env : Env)
        (accounts : list string) :
  (forall n,
      miner_account (database env n) = miner_account (database env 0)
      /\ epoch_distributor (database env n) = epoch_distributor (database env 0)
      /\ shanghai_date (NOW (database env n))
         = shanghai_date (NOW (database env 0))
      /\ fault (database env n) = None) ->
  forall c req,
    In req (pushed (snd (tick cfg env accounts c))) ->
    NoDup (map gauge_account (push_metrics req))
    /\ forall g,
        In g (push_metrics req)
        <-> exists acc,
             In acc accounts
             /\ desc_valid (metricsName cfg) acc = true
             /\ g = {| gauge_name := metricsName cfg;
                       gauge_account := acc;
                       gauge_value :=
                         scan_float64 (sqlStmt (database env 0) acc) |}.
Proof.
  intros St c req Hreq. rewrite tick_pushed in Hreq.
  destruct Hreq as [<-|[]]. simpl.
  assert (A : forall i acc,
             answer env c i acc
             = (scan_float64 (sqlStmt (database env 0) acc), None)).
  { intros i acc. unfold answer, queryDailyReward, QueryRow_Scan.
    destruct (St (queries c + i)%nat) as (M & E & D & F).
    now rewrite F, (sqlStmt_steady _ _ acc M E D). }
  split; [apply Gather_NoDup, registry_at_NoDup|].
  intros g. rewrite Gather_In. split.
  - intros Hg.
    destruct (provenance cfg env accounts c g Hg) as (i & acc & Hn & Q & G & V).
    exists acc. split; [eapply nth_error_In; eauto|]. split; [exact V|].
    rewrite G. unfold gauge_for, Set_, NewGauge. simpl. f_equal.
    rewrite A in Q. now injection Q as <-.
  - intros (acc & Hin & V & ->).
    apply In_nth_error in Hin as [i Hn].
    pose (P := fun j =>
                 match nth_error accounts j with
                 | Some a => String.eqb a acc
                 | None => false
                 end).
    assert (Pi : P i = true) by (unfold P; now rewrite Hn, String.eqb_refl).
    destruct (least_index P i Pi) as (i0 & _ & P0 & Least).
    unfold P in P0.
    destruct (nth_error accounts i0) as [a|] eqn:Hn0; [|discriminate].
    apply String.eqb_eq in P0. subst a.
    apply (@first_entry_registered _ cfg env accounts c i0 acc
             (scan_float64 (sqlStmt (database env 0) acc)) Hn0 (A i0 acc) V).
    intros j Hj Hnj. specialize (Least j Hj). unfold P in Least.
    rewrite Hnj, String.eqb_refl in Least. discriminate.
Qed.

Lemma steady_database_steady_batch_witness :
  NoDup (map gauge_account
           (push_metrics
              (push_request (Sample.cfg_of "alice,bob,alice" 30)
                 (registry_at (Sample.cfg_of "alice,bob,alice" 30)
                              Sample.env_later ["alice"; "bob"; "alice"]
                              {| queries := 3; pushes := 1 |} 3)))).
Proof.
  assert (St : forall n,
             miner_account (database Sample.env_later n)
             = miner_account (database Sample.env_later 0)
             /\ epoch_distributor (database Sample.env_later n)
                = epoch_distributor (database Sample.env_later 0)
             /\ shanghai_date (NOW (database Sample.env_later n))
                = shanghai_date (NOW (database Sample.env_later 0))
             /\ fault (database Sample.env_later n) = None).
  { intros n. split; [reflexivity|]. split; [reflexivity|].
    split; [|reflexivity].
    change ((Sample.noon + Z.of_nat (Nat.min n 3600) + 28800) / 86400 = 19844).
    symmetry.
    apply Z.div_unique with (r := 43200 + Z.of_nat (Nat.min n 3600));
      unfold Sample.noon; lia. }
  destruct (@steady_database_steady_batch Sample.external
              (Sample.cfg_of "alice,bob,alice" 30) Sample.env_later
              ["alice"; "bob"; "alice"] St {| queries := 3; pushes := 1 |}
              (push_request (Sample.cfg_of "alice,bob,alice" 30)
                 (registry_at (Sample.cfg_of "alice,bob,alice" 30)
                              Sample.env_later ["alice"; "bob"; "alice"]
                              {| queries := 3; pushes := 1 |} 3)))
    as [ND _]; [left; reflexivity | exact ND].
Defined.

(** X15.  What a tick publishes for one account name depends on the answers
    to the queries for that name only: in two runs that answer the entries of
    that name alike, the pushed batches hold the same gauges for it, whatever
    the other accounts' queries return or fail with. *)
Theorem accounts_do_not_interfere `{External} (cfg : Config) (env env' : Env)
        (accounts : list string) (c : Clock) (acc : string)
        (req req' : PushRequest) (g : Gauge) :
  (forall i, nth_error accounts i = Some acc ->
             answer env' c i acc = answer env c i acc) ->
  In req (pushed (snd (tick cfg env accounts c))) ->
  In req' (pushed (snd (tick cfg env' accounts c))) ->
  gauge_account g = acc ->
  (In g (push_metrics req') <-> In g (push_metrics req)).
Proof.
  intros Same Hreq Hreq' Hacc.
  rewrite tick_pushed in Hreq, Hreq'.
  destruct Hreq as [<-|[]]. destruct Hreq' as [<-|[]].
  simpl. rewrite !Gather_In, !registry_membership.
  split; intros (i & a & v & Hn & Q & V & F & G);
    assert (a = acc) by (rewrite <- Hacc, G; reflexivity); subst a;
    exists i, acc, v; repeat split; auto.
  - now rewrite <- (Same i Hn).
  - intros j Hj Hnj. rewrite <- (Same j Hnj). now apply F.
  - now rewrite (Same i Hn).
  - intros j Hj Hnj. rewrite (Same j Hnj). now apply F.
Qed.

Lemma accounts_do_not_interfere_witness :
  In {| gauge_name := "daily_reward"; gauge_account := "alice";
        gauge_value := 5%float |}
     (push_metrics
        (push_request (Sample.cfg_of "alice,bob" 30)
           (registry_at (Sample.cfg_of "alice,bob" 30) Sample.env_changing
                        ["alice"; "bob"] {| queries := 0; pushes := 0 |} 2))).
Proof.
  apply (@accounts_do_not_interfere Sample.external
           (Sample.cfg_of "alice,bob" 30) Sample.env_ok Sample.env_changing
           ["alice"; "bob"] {| queries := 0; pushes := 0 |} "alice"
           (push_request (Sample.cfg_of "alice,bob" 30)
              (registry_at (Sample.cfg_of "alice,bob" 30) Sample.env_ok
                           ["alice"; "bob"] {| queries := 0; pushes := 0 |} 2))).
  - intros [|[|i]] Hn; [reflexivity | discriminate Hn |].
    destruct i; discriminate Hn.
  - left. reflexivity.
  - left. reflexivity.
  - reflexivity.
  - left. reflexivity.
Defined.

(** * Further properties of startup *)

Lemma Split_free (s : string) (c : ascii) :
  Strings.Count s c = O -> Strings.Split s c = [s].
Proof.
  induction s as [|x rest IH]; simpl; [reflexivity|].
  destruct (Ascii.eqb x c); [discriminate|].
  intros Z. now rewrite (IH Z).
Qed.

(** X7.  The account list of two account strings joined by a comma is the
    list of the first followed by the list of the second: a further account
    added after a comma leaves the earlier ones as they were, and a trailing
    comma adds an account with the empty name. *)
Theorem Split_at_comma (s1 s2 : string) (c : ascii) :
  Strings.Split (s1 ++ String c s2) c = Strings.Split s1 c ++ Strings.Split s2 c.
Proof.
  induction s1 as [|x rest IH]; simpl.
  - now rewrite Ascii.eqb_refl.
  - destruct (Ascii.eqb x c); [now rewrite IH|].
    rewrite IH.
    destruct (Strings.Split rest c) as [|piece pieces] eqn:E; [|reflexivity].
    now destruct (SplitFacts.Split_not_nil rest c).
Qed.

(** X8.  Account names that hold no comma, at least one of them, are found
    again, in order and as they are, when they are joined by commas and the
    result is split. *)
Theorem Split_Join (names : list string) (c : ascii) :
  names <> [] ->
  Forall (fun name => Strings.Count name c = O) names ->
  Strings.Split (Strings.Join names c) c = names.
Proof.
  induction names as [|name rest IH]; [congruence|].
  intros _ Free. inversion Free as [|? ? Fn Fr]; subst.
  destruct rest as [|next rest'].
  - simpl. now apply Split_free.
  - rewrite SplitFacts.Join_cons by discriminate.
    rewrite Split_at_comma, (Split_free _ _ Fn), IH by (auto; discriminate).
    reflexivity.
Qed.

Lemma Split_Join_witness :
  Strings.Split (Strings.Join ["alice"; ""; " bob"] comma) comma
  = ["alice"; ""; " bob"].
Proof.
  apply (@Split_Join ["alice"; ""; " bob"] comma).
  - discriminate.
  - repeat constructor.
Defined.

(** X9.  With a non-empty account string and a database that opens and
    answers, every interval from 1 to 9223372036 seconds enters the loop with
    a ticker period of exactly that many seconds, on the account list split
    from the account string, which is never empty. *)
Theorem interval_in_range_is_exact `{External} (cfg : Config) (env : Env) :
  accountStr cfg <> "" ->
  sql_Open env (dsn cfg) = None ->
  db_Ping env (dsn cfg) = None ->
  1 <= interval cfg <= 9223372036 ->
  startup cfg env
  = Loop (Strings.Split (accountStr cfg) comma)
         (interval cfg * 1000000000)
         [EvLog (Start_monitoring (interval cfg) (pushgateway cfg) (job cfg)
                                  (metricsName cfg) (instance cfg))]
  /\ Strings.Split (accountStr cfg) comma <> [].
Proof.
  intros A O P R. split; [|apply SplitFacts.Split_not_nil].
  pose proof (@Int64Facts.seconds_exact (interval cfg) ltac:(lia)) as E.
  startup_cases cfg env; congruence || lia.
Qed.

Lemma interval_in_range_is_exact_witness :
  startup (Sample.cfg_of "alice,bob" 30) Sample.env_ok
  = Loop ["alice"; "bob"] 30000000000
         [EvLog (Start_monitoring 30 "http://localhost:9091" "reward"
                                  "daily_reward" "monitor-1")].
Proof.
  apply (@interval_in_range_is_exact Sample.external
           (Sample.cfg_of "alice,bob" 30) Sample.env_ok);
    [discriminate | reflexivity | reflexivity | simpl; lia].
Defined.

(** X10.  A positive interval can panic too: from 9223372037 to 18446744073
    seconds the product with [time.Second] leaves the range of [int64] and
    wraps around to a negative period, and the construction of the ticker
    panics. *)
Theorem long_interval_panics `{External} (cfg : Config) (env : Env) :
  accountStr cfg <> "" ->
  sql_Open env (dsn cfg) = None ->
  db_Ping env (dsn cfg) = None ->
  9223372037 <= interval cfg <= 18446744073 ->
  Int64.mul (interval cfg) Time.Second
  = interval cfg * 1000000000 - 18446744073709551616
  /\ startup cfg env = Panic "non-positive interval for NewTicker".
Proof.
  intros A O P R.
  assert (E : Int64.mul (interval cfg) Time.Second
              = interval cfg * 1000000000 - 18446744073709551616).
  { unfold Int64.mul, Int64.wrap, Int64.modulus, Time.Second.
    change (2 ^ 64) with 18446744073709551616.
    change (2 ^ 63) with 9223372036854775808.
    replace (interval cfg * 1000000000 + 9223372036854775808)
      with (interval cfg * 1000000000 - 9223372036854775808
            + 1 * 18446744073709551616) by lia.
    rewrite Z.mod_add by lia. rewrite Z.mod_small by lia. lia. }
  split; [exact E|].
  startup_cases cfg env; try congruence; try lia.
Qed.

Lemma long_interval_panics_witness :
  startup (Sample.cfg_of "alice" 10000000000) Sample.env_ok
  = Panic "non-positive interval for NewTicker".
Proof.
  apply (@long_interval_panics Sample.external
           (Sample.cfg_of "alice" 10000000000) Sample.env_ok);
    [discriminate | reflexivity | reflexivity | simpl; lia].
Defined.

(** * Further properties of the query *)

Lemma selected_with_row `{External} (db : DB) (account : string)
      (row : epoch_distributor_row) :
  selected (with_row db row) account
  = if where_clause db account row
    then row :: selected db account
    else selected db account.
Proof. reflexivity. Qed.

(** X11.  A row recorded in [epoch_distributor] that fails the WHERE clause
    (another project, an account of another name, another day in
    Asia/Shanghai) leaves the answer of [queryDailyReward] as it was; a row
    that passes it adds its reward, divided by 10^6, to the value scanned. *)
Theorem recorded_row_counts_iff_selected `{External} (db : DB)
        (account : string) (row : epoch_distributor_row) :
  (where_clause db account row = false ->
   queryDailyReward (with_row db row) account = queryDailyReward db account)
  /\ (where_clause db account row = true -> fault db = None ->
      exists q q',
        queryDailyReward db account = (scan_float64 q, None)
        /\ queryDailyReward (with_row db row) account = (scan_float64 q', None)
        /\ (q' == q + inject_Z (ed_reward row) / inject_Z 1000000)%Q).
Proof.
  split.
  - intros W. unfold queryDailyReward, QueryRow_Scan, sqlStmt.
    now rewrite selected_with_row, W.
  - intros W F.
    exists (sqlStmt db account), (sqlStmt (with_row db row) account).
    unfold queryDailyReward, QueryRow_Scan. simpl. rewrite F.
    split; [reflexivity|]. split; [reflexivity|].
    rewrite !sqlStmt_sum, selected_with_row, W. simpl.
    rewrite inject_Z_plus. field.
Qed.

Lemma recorded_row_counts_iff_selected_witness :
  queryDailyReward
    (with_row Sample.db0 (Sample.paid 2 9000000 (Sample.noon - 86400))) "bob"
  = queryDailyReward Sample.db0 "bob"
  /\ exists q q',
      queryDailyReward Sample.db0 "alice" = (scan_float64 q, None)
      /\ queryDailyReward
           (with_row Sample.db0 (Sample.paid 1 1000000 Sample.noon)) "alice"
         = (scan_float64 q', None)
      /\ (q' == q + inject_Z 1000000 / inject_Z 1000000)%Q.
Proof.
  split.
  - apply (@recorded_row_counts_iff_selected Sample.external Sample.db0 "bob"
             (Sample.paid 2 9000000 (Sample.noon - 86400))).
    reflexivity.
  - apply (@recorded_row_counts_iff_selected Sample.external Sample.db0 "alice"
             (Sample.paid 1 1000000 Sample.noon)); reflexivity.
Defined.

(** X12.  For a name that no row of [miner_account] carries, the statement
    selects nothing, whatever [epoch_distributor] holds, and
    [queryDailyReward] returns 0 with a nil error: an unknown or misspelt
    account is not told apart from an account without rewards today. *)
Theorem unknown_account_is_zero `{External} (db : DB) (account : string) :
  (forall a, In a (miner_account db) -> ma_name a <> account) ->
  selected db account = []
  /\ (fault db = None -> queryDailyReward db account = (0%float, None)).
Proof.
  intros U.
  assert (E : selected db account = []).
  { unfold selected.
    induction (epoch_distributor db) as [|row rows IH]; [reflexivity|].
    simpl. rewrite IH.
    assert (N : account_id_in db account (ed_miner_account_id row) = false).
    { unfold account_id_in. apply not_true_is_false. intros T.
      apply existsb_exists in T as (a & Ha & M).
      apply andb_true_iff in M as [N _]. apply String.eqb_eq in N.
      now apply (U a Ha). }
    unfold where_clause. rewrite N, andb_false_r. reflexivity. }
  split; [exact E|].
  intros F. unfold queryDailyReward, QueryRow_Scan, sqlStmt.
  rewrite F, E. simpl. now rewrite scan_float64_zero.
Qed.

Lemma unknown_account_is_zero_witness :
  queryDailyReward Sample.db0 "Alice" = (0%float, None).
Proof.
  apply (@unknown_account_is_zero Sample.external Sample.db0 "Alice").
  - intros a [<-|[<-|[]]]; discriminate.
  - reflexivity.
Defined.

(** X13.  The number the statement returns, before it is scanned, is not
    negative as long as no selected row has a negative reward. *)
Theorem nonnegative_rewards_nonnegative_sum `{External} (db : DB)
        (account : string) :
  (forall row, In row (selected db account) -> 0 <= ed_reward row) ->
  (0 <= sqlStmt db account)%Q.
Proof.
  intros Pos. rewrite sqlStmt_sum.
  assert (S : 0 <= fold_right Z.add 0 (map ed_reward (selected db account))).
  { induction (selected db account) as [|row rows IH]; simpl; [lia|].
    pose proof (Pos row (or_introl eq_refl)).
    assert (0 <= fold_right Z.add 0 (map ed_reward rows))
      by (apply IH; intros r Hr; apply Pos; now right).
    lia. }
  unfold Qle, Qdiv, Qmult, Qinv, inject_Z. simpl. lia.
Qed.

Lemma nonnegative_rewards_nonnegative_sum_witness :
  (0 <= sqlStmt Sample.db0 "alice")%Q.
Proof.
  apply (@nonnegative_rewards_nonnegative_sum Sample.external Sample.db0 "alice").
  intros row Hin. vm_compute in Hin.
  destruct Hin as [<-|[<-|[]]]; simpl; lia.
Defined.


